(** * English_practice_UA: the practice-session controller of [App.js]

    A shallow embedding of [src/my-english-tenses-app/src/App.js]: the
    component state, the two Gemini clients ([generateSentences],
    [getSentenceReview]) and the three button handlers
    ([handleStartPractice], [handleGetReview], [handleNextOrFinish]),
    followed by the properties of the session state machine. *)

From Stdlib Require Import ZArith NArith List Bool Ascii String DecimalString
  DecimalPos Lia.
From stdpp Require Import base decidable option list gmap sets.
Import ListNotations.

Local Open Scope N_scope.

(** ** JavaScript strings

    A JS string is a sequence of UTF-16 code units; [String.prototype.trim],
    the regular expression dot and [Set.prototype.has] all work on code
    units, so that is the representation used here. *)

Definition jsstring : Type := list N.

(** String literals of the source are written as Rocq strings, whose
    bytes are the UTF-8 encoding found in the source file; [utf16] decodes
    them into code units (a four-byte sequence becomes a surrogate pair). *)
Fixpoint utf16 (bytes : list N) : jsstring :=
  match bytes with
  | [] => []
  | b0 :: t =>
      if b0 <? 128 then b0 :: utf16 t
      else if b0 <? 224 then
        match t with
        | b1 :: t1 => (b0 mod 32) * 64 + b1 mod 64 :: utf16 t1
        | _ => []
        end
      else if b0 <? 240 then
        match t with
        | b1 :: b2 :: t2 =>
            (b0 mod 16) * 4096 + (b1 mod 64) * 64 + b2 mod 64 :: utf16 t2
        | _ => []
        end
      else
        match t with
        | b1 :: b2 :: b3 :: t3 =>
            let cp := (b0 mod 8) * 262144 + (b1 mod 64) * 4096
                      + (b2 mod 64) * 64 + b3 mod 64 in
            let v := cp - 65536 in
            55296 + v / 1024 :: 56320 + v mod 1024 :: utf16 t3
        | _ => []
        end
  end.

Definition js (s : string) : jsstring :=
  utf16 (map N_of_ascii (list_ascii_of_string s)).

(** The double quote, which the literals below splice in. *)
Definition dquote : jsstring := [34].

(** ECMAScript [LineTerminator]: LF, CR, LS, PS. *)
Definition isLineTerminator (c : N) : bool :=
  (c =? 10) || (c =? 13) || (c =? 8232) || (c =? 8233).

(** ECMAScript [WhiteSpace]: TAB, VT, FF, SP, NBSP, ZWNBSP and category Zs. *)
Definition isWhiteSpace (c : N) : bool :=
  (c =? 9) || (c =? 11) || (c =? 12) || (c =? 32) || (c =? 160)
  || (c =? 5760) || ((8192 <=? c) && (c <=? 8202))
  || (c =? 8239) || (c =? 8287) || (c =? 12288) || (c =? 65279).

Definition isTrimmed (c : N) : bool := isWhiteSpace c || isLineTerminator c.

Fixpoint trimStart (s : jsstring) : jsstring :=
  match s with
  | c :: s' => if isTrimmed c then trimStart s' else s
  | [] => []
  end.

(** [String.prototype.trim] *)
Definition trim (s : jsstring) : jsstring :=
  reverse (trimStart (reverse (trimStart s))).

(** [s.split('\n')]: the pieces between line feeds; the empty string
    splits into one empty piece. *)
Fixpoint splitLines (s : jsstring) : list jsstring :=
  match s with
  | [] => [[]]
  | c :: s' =>
      if c =? 10 then [] :: splitLines s'
      else match splitLines s' with
           | l :: ls => (c :: l) :: ls
           | [] => [[c]]
           end
  end.

(** ** The line pattern of [generateSentences]

    The regular expression of the parse loop reads: a greedy group of
    dots, a space, an opening square bracket, a lazy group of dots, a
    closing square bracket, end of input.  What follows is a backtracking
    matcher for this one expression, in the order the regular-expression
    engine explores it: leftmost start first, the first group greedy, the
    second group lazy, then the closing bracket at the end of the input
    (there is no [m] flag, so the dollar is the end of the string). *)

(** The dot matches any code unit but a line terminator. *)
Definition dot (c : N) : bool := negb (isLineTerminator c).

(** Every way of cutting [s] into a run of dot-matched units and the
    rest, shortest run first. *)
Fixpoint dotSplits (s : jsstring) : list (jsstring * jsstring) :=
  ([], s) ::
  match s with
  | c :: s' =>
      if dot c then (fun pq => (c :: fst pq, snd pq)) <$> dotSplits s' else []
  | [] => []
  end.

Fixpoint firstSome {A B : Type} (f : A -> option B) (l : list A) : option B :=
  match l with
  | [] => None
  | a :: l' => match f a with Some b => Some b | None => firstSome f l' end
  end.

(** What follows the first group: space, opening bracket, the lazy
    group, closing bracket, end of input. *)
Definition matchTag (rest : jsstring) : option jsstring :=
  match rest with
  | c0 :: c1 :: r =>
      if (c0 =? 32) && (c1 =? 91) then
        firstSome (fun pq => match snd pq with
                             | [c] => if c =? 93 then Some (fst pq) else None
                             | _ => None
                             end) (dotSplits r)
      else None
  | _ => None
  end.

(** The whole pattern tried at the head of [s]. *)
Definition matchHere (s : jsstring) : option (jsstring * jsstring) :=
  firstSome (fun pq => match matchTag (snd pq) with
                       | Some tag => Some (fst pq, tag)
                       | None => None
                       end) (reverse (dotSplits s)).

(** [line.match] with that expression: the two captures of the leftmost
    match, or [None] for [null]. *)
Fixpoint lineMatch (s : jsstring) : option (jsstring * jsstring) :=
  match matchHere s with
  | Some m => Some m
  | None => match s with
            | [] => None
            | _ :: s' => lineMatch s'
            end
  end.

(** ** JavaScript numbers

    The numbers of the component are the sentence count, which comes from
    [parseInt] and so is an integer or NaN, and the sentence index.
    Integers are taken exactly (counts stay far below 2^53). *)

Inductive number : Type :=
| Num (z : Z)
| NaN.

(** [a <= b], [a < b] and [a - b]; a comparison with NaN is false. *)
Definition leNum (a b : number) : bool :=
  match a, b with
  | Num x, Num y => (x <=? y)%Z
  | _, _ => false
  end.

Definition ltNum (a b : number) : bool :=
  match a, b with
  | Num x, Num y => (x <? y)%Z
  | _, _ => false
  end.

Definition subNum (a b : number) : number :=
  match a, b with
  | Num x, Num y => Num (x - y)
  | _, _ => NaN
  end.

(** A number inside a template literal. *)
Definition numberToString (n : number) : jsstring :=
  match n with
  | Num z => js (NilZero.string_of_int (Z.to_int z))
  | NaN => js "NaN"
  end.

(** The value of a digit in the given radix, if it is one. *)
Definition digitValue (radix c : N) : option N :=
  let v := if (48 <=? c) && (c <=? 57) then Some (c - 48)
           else if (97 <=? c) && (c <=? 122) then Some (c - 87)
           else if (65 <=? c) && (c <=? 90) then Some (c - 55)
           else None in
  match v with
  | Some d => if d <? radix then Some d else None
  | None => None
  end.

(** The longest prefix of digits, as a number; [None] when it is empty. *)
Fixpoint parseDigits (radix : N) (acc : option N) (s : jsstring) : option N :=
  match s with
  | c :: s' =>
      match digitValue radix c with
      | Some d => parseDigits radix (Some (default 0 acc * radix + d)) s'
      | None => acc
      end
  | [] => acc
  end.

(** [parseInt(s)] without a radix: leading white space, a sign, an
    optional hexadecimal prefix, then digits; NaN when there are none. *)
Definition parseInt (s : jsstring) : number :=
  let s1 := trimStart s in
  let signed := match s1 with
                | 45 :: r => (true, r)
                | 43 :: r => (false, r)
                | _ => (false, s1)
                end in
  let based := match snd signed with
               | 48 :: 120 :: r => (16, r)
               | 48 :: 88 :: r => (16, r)
               | r => (10, r)
               end in
  match parseDigits (fst based) None (snd based) with
  | Some n => Num (if fst signed then - Z.of_N n else Z.of_N n)
  | None => NaN
  end.

(** [array.slice(0, n)] *)
Definition slice0 {A : Type} (l : list A) (n : number) : list A :=
  match n with
  | Num z => if (z <? 0)%Z then take (Z.to_nat (Z.of_nat (length l) + z)) l
             else take (Z.to_nat z) l
  | NaN => []
  end.

(** [array.join(sep)] *)
Fixpoint join (sep : jsstring) (l : list jsstring) : jsstring :=
  match l with
  | [] => []
  | [x] => x
  | x :: l' => x ++ sep ++ join sep l'
  end.

(** ** Component state *)

Inductive Page : Type := start | practice.

(** An element of [sentencesData]. *)
Module PracticeItem.
Record t : Type := mk {
  originalSentence : jsstring;
  userAnswer : jsstring;
  geminiReview : jsstring;
  tenseUsed : jsstring
}.
End PracticeItem.

(** An element of [parsedSentences]. *)
Record Parsed : Type := { sentence : jsstring; tense : jsstring }.

(** A [Set] object is mutable and shared by reference: the component
    state and the argument of [generateSentences] hold the same object.
    Set objects live in a store and are named by their position in it. *)
Abbreviation loc := nat.

(** The [useState] cells of [App].  The Firebase handles and the user
    identifier are opaque to the session logic and left out. *)
Record AppState : Type := {
  currentPage : Page;
  selectedTenses : list jsstring;
  selectedThemes : jsstring;
  numSentences : number;
  currentSentenceIndex : nat;
  sentencesData : list PracticeItem.t;
  userAnswer : jsstring;
  currentReview : jsstring;
  isLoading : bool;
  errorMessage : jsstring;
  isAuthReady : bool;
  generatedSentencesSet : loc;
  showTenseInPractice : bool
}.

(** The world a handler runs in: the component state and the store of
    Set objects. *)
Record World : Type := { ui : AppState; store : list (gset jsstring) }.

(** The state setters. *)
Definition setCurrentPage (v : Page) (s : AppState) : AppState :=
  {| currentPage := v;
     selectedTenses := selectedTenses s;
     selectedThemes := selectedThemes s;
     numSentences := numSentences s;
     currentSentenceIndex := currentSentenceIndex s;
     sentencesData := sentencesData s;
     userAnswer := userAnswer s;
     currentReview := currentReview s;
     isLoading := isLoading s;
     errorMessage := errorMessage s;
     isAuthReady := isAuthReady s;
     generatedSentencesSet := generatedSentencesSet s;
     showTenseInPractice := showTenseInPractice s |}.

Definition setSelectedTenses (v : list jsstring) (s : AppState) : AppState :=
  {| currentPage := currentPage s;
     selectedTenses := v;
     selectedThemes := selectedThemes s;
     numSentences := numSentences s;
     currentSentenceIndex := currentSentenceIndex s;
     sentencesData := sentencesData s;
     userAnswer := userAnswer s;
     currentReview := currentReview s;
     isLoading := isLoading s;
     errorMessage := errorMessage s;
     isAuthReady := isAuthReady s;
     generatedSentencesSet := generatedSentencesSet s;
     showTenseInPractice := showTenseInPractice s |}.

Definition setSelectedThemes (v : jsstring) (s : AppState) : AppState :=
  {| currentPage := currentPage s;
     selectedTenses := selectedTenses s;
     selectedThemes := v;
     numSentences := numSentences s;
     currentSentenceIndex := currentSentenceIndex s;
     sentencesData := sentencesData s;
     userAnswer := userAnswer s;
     currentReview := currentReview s;
     isLoading := isLoading s;
     errorMessage := errorMessage s;
     isAuthReady := isAuthReady s;
     generatedSentencesSet := generatedSentencesSet s;
     showTenseInPractice := showTenseInPractice s |}.

Definition setNumSentences (v : number) (s : AppState) : AppState :=
  {| currentPage := currentPage s;
     selectedTenses := selectedTenses s;
     selectedThemes := selectedThemes s;
     numSentences := v;
     currentSentenceIndex := currentSentenceIndex s;
     sentencesData := sentencesData s;
     userAnswer := userAnswer s;
     currentReview := currentReview s;
     isLoading := isLoading s;
     errorMessage := errorMessage s;
     isAuthReady := isAuthReady s;
     generatedSentencesSet := generatedSentencesSet s;
     showTenseInPractice := showTenseInPractice s |}.

Definition setCurrentSentenceIndex (v : nat) (s : AppState) : AppState :=
  {| currentPage := currentPage s;
     selectedTenses := selectedTenses s;
     selectedThemes := selectedThemes s;
     numSentences := numSentences s;
     currentSentenceIndex := v;
     sentencesData := sentencesData s;
     userAnswer := userAnswer s;
     currentReview := currentReview s;
     isLoading := isLoading s;
     errorMessage := errorMessage s;
     isAuthReady := isAuthReady s;
     generatedSentencesSet := generatedSentencesSet s;
     showTenseInPractice := showTenseInPractice s |}.

Definition setSentencesData (v : list PracticeItem.t) (s : AppState) : AppState :=
  {| currentPage := currentPage s;
     selectedTenses := selectedTenses s;
     selectedThemes := selectedThemes s;
     numSentences := numSentences s;
     currentSentenceIndex := currentSentenceIndex s;
     sentencesData := v;
     userAnswer := userAnswer s;
     currentReview := currentReview s;
     isLoading := isLoading s;
     errorMessage := errorMessage s;
     isAuthReady := isAuthReady s;
     generatedSentencesSet := generatedSentencesSet s;
     showTenseInPractice := showTenseInPractice s |}.

Definition setUserAnswer (v : jsstring) (s : AppState) : AppState :=
  {| currentPage := currentPage s;
     selectedTenses := selectedTenses s;
     selectedThemes := selectedThemes s;
     numSentences := numSentences s;
     currentSentenceIndex := currentSentenceIndex s;
     sentencesData := sentencesData s;
     userAnswer := v;
     currentReview := currentReview s;
     isLoading := isLoading s;
     errorMessage := errorMessage s;
     isAuthReady := isAuthReady s;
     generatedSentencesSet := generatedSentencesSet s;
     showTenseInPractice := showTenseInPractice s |}.

Definition setCurrentReview (v : jsstring) (s : AppState) : AppState :=
  {| currentPage := currentPage s;
     selectedTenses := selectedTenses s;
     selectedThemes := selectedThemes s;
     numSentences := numSentences s;
     currentSentenceIndex := currentSentenceIndex s;
     sentencesData := sentencesData s;
     userAnswer := userAnswer s;
     currentReview := v;
     isLoading := isLoading s;
     errorMessage := errorMessage s;
     isAuthReady := isAuthReady s;
     generatedSentencesSet := generatedSentencesSet s;
     showTenseInPractice := showTenseInPractice s |}.

Definition setIsLoading (v : bool) (s : AppState) : AppState :=
  {| currentPage := currentPage s;
     selectedTenses := selectedTenses s;
     selectedThemes := selectedThemes s;
     numSentences := numSentences s;
     currentSentenceIndex := currentSentenceIndex s;
     sentencesData := sentencesData s;
     userAnswer := userAnswer s;
     currentReview := currentReview s;
     isLoading := v;
     errorMessage := errorMessage s;
     isAuthReady := isAuthReady s;
     generatedSentencesSet := generatedSentencesSet s;
     showTenseInPractice := showTenseInPractice s |}.

Definition setErrorMessage (v : jsstring) (s : AppState) : AppState :=
  {| currentPage := currentPage s;
     selectedTenses := selectedTenses s;
     selectedThemes := selectedThemes s;
     numSentences := numSentences s;
     currentSentenceIndex := currentSentenceIndex s;
     sentencesData := sentencesData s;
     userAnswer := userAnswer s;
     currentReview := currentReview s;
     isLoading := isLoading s;
     errorMessage := v;
     isAuthReady := isAuthReady s;
     generatedSentencesSet := generatedSentencesSet s;
     showTenseInPractice := showTenseInPractice s |}.

Definition setIsAuthReady (v : bool) (s : AppState) : AppState :=
  {| currentPage := currentPage s;
     selectedTenses := selectedTenses s;
     selectedThemes := selectedThemes s;
     numSentences := numSentences s;
     currentSentenceIndex := currentSentenceIndex s;
     sentencesData := sentencesData s;
     userAnswer := userAnswer s;
     currentReview := currentReview s;
     isLoading := isLoading s;
     errorMessage := errorMessage s;
     isAuthReady := v;
     generatedSentencesSet := generatedSentencesSet s;
     showTenseInPractice := showTenseInPractice s |}.

Definition setGeneratedSentencesSet (v : loc) (s : AppState) : AppState :=
  {| currentPage := currentPage s;
     selectedTenses := selectedTenses s;
     selectedThemes := selectedThemes s;
     numSentences := numSentences s;
     currentSentenceIndex := currentSentenceIndex s;
     sentencesData := sentencesData s;
     userAnswer := userAnswer s;
     currentReview := currentReview s;
     isLoading := isLoading s;
     errorMessage := errorMessage s;
     isAuthReady := isAuthReady s;
     generatedSentencesSet := v;
     showTenseInPractice := showTenseInPractice s |}.

Definition setShowTenseInPractice (v : bool) (s : AppState) : AppState :=
  {| currentPage := currentPage s;
     selectedTenses := selectedTenses s;
     selectedThemes := selectedThemes s;
     numSentences := numSentences s;
     currentSentenceIndex := currentSentenceIndex s;
     sentencesData := sentencesData s;
     userAnswer := userAnswer s;
     currentReview := currentReview s;
     isLoading := isLoading s;
     errorMessage := errorMessage s;
     isAuthReady := isAuthReady s;
     generatedSentencesSet := generatedSentencesSet s;
     showTenseInPractice := v |}.

Definition initialState : AppState :=
  {| currentPage := start;
     selectedTenses := [];
     selectedThemes := [];
     numSentences := Num 5;
     currentSentenceIndex := 0%nat;
     sentencesData := [];
     userAnswer := [];
     currentReview := [];
     isLoading := false;
     errorMessage := [];
     isAuthReady := false;
     generatedSentencesSet := 0%nat;
     showTenseInPractice := true |}.

(** At mount, the one Set object of [useState(new Set())]. *)
Definition initialWorld : World := {| ui := initialState; store := [∅] |}.

(** The contents of the Set object at [l]. *)
Definition contents (w : World) (l : loc) : gset jsstring :=
  default ∅ (store w !! l).

(** ** The Gemini service as seen by [fetch]

    What one exchange can bring back: [fetch] rejects, or a response
    arrives with its [ok] flag, its status and a body.  The body is not
    JSON (then [response.json()] rejects), or it is the JSON value null
    (then the first property read of it throws a TypeError), or it is a
    JSON value of which the code reads [error?.message] and [candidates];
    a missing [candidates] and an empty one fail the same test and are
    both the empty list here.

    Where the code reads a property of null or calls [trim] on what is
    not a string, the engine throws a TypeError; its wording is the
    engine's, so the value carries the message. *)

(** What [parts[0].text.trim()] meets in a part: a string under [text];
    or none (the part is null, has no [text], or a [text] that is not a
    string), and the call throws. *)
Inductive Part : Type :=
| Text (text : jsstring)
| NoText (message : jsstring).

(** A candidate: its [content.parts], [None] when [content] or
    [content.parts] is missing; or null, and reading [content] throws. *)
Inductive Candidate : Type :=
| Content (parts : option (list Part))
| NullCandidate (message : jsstring).

Inductive Body : Type :=
| NotJson (message : jsstring)
| JsonNull (message : jsstring)
| Json (error_message : option jsstring) (candidates : list Candidate).

Record Response : Type := { ok : bool; status : Z; body : Body }.

Inductive Fetched : Type :=
| NetworkError (message : jsstring)
| Responded (response : Response).

(** ** Asynchronous functions

    An async function runs on the world until it returns, throws, or
    reaches an [await] on the network; there it hands the world back
    together with the request and the rest of the computation, which
    resumes on the world as it is when the exchange completes. *)

Inductive Step (A : Type) : Type :=
| Finished (w : World) (a : A)
| Suspended (w : World) (request : jsstring)
            (resume : Fetched -> World -> Step A)
| Failed (w : World) (message : jsstring).

Arguments Finished {A} w a.
Arguments Suspended {A} w request resume.
Arguments Failed {A} w message.

Definition Async (A : Type) : Type := World -> Step A.

Fixpoint bindStep {A B : Type} (s : Step A) (f : A -> Async B) : Step B :=
  match s with
  | Finished w a => f a w
  | Suspended w request resume =>
      Suspended w request (fun r w' => bindStep (resume r w') f)
  | Failed w message => Failed w message
  end.

#[global] Instance Async_ret : MRet Async := fun A a w => Finished w a.
#[global] Instance Async_bind : MBind Async :=
  fun A B f m w => bindStep (m w) f.

Definition throw {A : Type} (message : jsstring) : Async A :=
  fun w => Failed w message.

(** [try { body } catch (error) { handler(error.message) }] *)
Fixpoint catchStep {A : Type} (s : Step A) (handler : jsstring -> Async A)
  : Step A :=
  match s with
  | Finished w a => Finished w a
  | Suspended w request resume =>
      Suspended w request (fun r w' => catchStep (resume r w') handler)
  | Failed w message => handler message w
  end.

Definition tryCatch {A : Type} (body : Async A) (handler : jsstring -> Async A)
  : Async A :=
  fun w => catchStep (body w) handler.

(** [try { body } finally { cleanup }] where [cleanup] only sets state. *)
Fixpoint finallyStep {A : Type} (s : Step A) (cleanup : World -> World)
  : Step A :=
  match s with
  | Finished w a => Finished (cleanup w) a
  | Suspended w request resume =>
      Suspended w request (fun r w' => finallyStep (resume r w') cleanup)
  | Failed w message => Failed (cleanup w) message
  end.

Definition tryFinally {A : Type} (body : Async A) (cleanup : World -> World)
  : Async A :=
  fun w => finallyStep (body w) cleanup.

Definition onUi (f : AppState -> AppState) (w : World) : World :=
  {| ui := f (ui w); store := store w |}.

(** A call of a state setter. *)
Definition update (f : AppState -> AppState) : Async unit :=
  fun w => Finished (onUi f w) tt.

(** [new Set()] *)
Definition newSet : Async loc :=
  fun w => Finished {| ui := ui w; store := store w ++ [∅] |} (length (store w)).

(** [set.has(x)] *)
Definition setHas (l : loc) (x : jsstring) : Async bool :=
  fun w => Finished w (bool_decide (x ∈ contents w l)).

(** [set.add(x)] *)
Definition setAdd (l : loc) (x : jsstring) : Async unit :=
  fun w => Finished {| ui := ui w; store := alter (union {[x]}) l (store w) |} tt.

(** [await fetch(apiUrl, {method: 'POST', ..., body: JSON.stringify(payload)})]
    where the payload holds the one user turn [prompt]. *)
Definition fetch (prompt : jsstring) : Async Response :=
  fun w => Suspended w prompt (fun r w' =>
    match r with
    | NetworkError message => Failed w' message
    | Responded response => Finished w' response
    end).

(** [await response.json()] and the first property read of its value:
    [error?.message] and [candidates]. *)
Definition json (response : Response) : Async (option jsstring * list Candidate) :=
  match body response with
  | NotJson message => throw message
  | JsonNull message => throw message
  | Json e c => mret (e, c)
  end.

(** [a || b] on strings: the empty string is falsy. *)
Definition orElse (a : option jsstring) (b : jsstring) : jsstring :=
  match a with
  | Some (c :: s) => c :: s
  | _ => b
  end.

Definition truthy (s : jsstring) : bool :=
  match s with [] => false | _ => true end.

(** The message of the error thrown on a response that is not [ok]. *)
Definition apiError (response : Response) (e : option jsstring) : jsstring :=
  js "API error: " ++ numberToString (Num (status response)) ++ js " - "
  ++ orElse e (js "Unknown error").

(** ** [generateSentences] *)

Definition generationPrompt (tenses : list jsstring) (themes : jsstring)
    (numberOfSentences : number) : jsstring :=
  let chosenTenses :=
    if (0 <? length tenses)%nat then tenses else [js "Present Simple"] in
  let tensesPrompt := join (js ", ") chosenTenses in
  let prompt :=
    js "Створи " ++ numberToString numberOfSentences
    ++ js " простих, унікальних речень українською мовою. Кожне речення має відповідати одному з граматичних часів: "
    ++ tensesPrompt
    ++ js ". Надай лише речення, кожне на новому рядку, без зайвого тексту чи нумерації. Кожне речення повинно бути у форматі "
    ++ dquote ++ js "Речення українською [Назва Часу]" ++ dquote
    ++ js ". Наприклад: " ++ dquote ++ js "Я їм яблуко. [Present Simple]"
    ++ dquote ++ js "." in
  if truthy themes then prompt ++ js " Тема речень: " ++ themes ++ js "."
  else prompt.

(** The [for (const line of lines)] loop; [parsedSentences] is the array
    built so far, [usedSentences] the Set object that is tested and
    extended. *)
Fixpoint parseLines (usedSentences : loc) (lines : list jsstring)
    (parsedSentences : list Parsed) : Async (list Parsed) :=
  match lines with
  | [] => mret parsedSentences
  | line :: rest =>
      match lineMatch line with
      | Some m =>
          let sentenceText := trim (fst m) in
          let tenseText := trim (snd m) in
          seen ← setHas usedSentences sentenceText;
          if negb seen then
            setAdd usedSentences sentenceText;;
            parseLines usedSentences rest
              (parsedSentences
               ++ [{| sentence := sentenceText; tense := tenseText |}])
          else parseLines usedSentences rest parsedSentences
      | None => parseLines usedSentences rest parsedSentences
      end
  end.

(** The body of the [try] block from the response on. *)
Definition generateFrom (numberOfSentences : number) (usedSentences : loc)
    (response : Response) : Async (option (list Parsed)) :=
  if negb (ok response) then
    errorData ← json response;
    throw (apiError response (fst errorData))
  else
    result ← json response;
    match snd result with
    | NullCandidate message :: _ => throw message
    | Content (Some (NoText message :: _)) :: _ => throw message
    | Content (Some (Text text :: _)) :: _ =>
        let rawSentences := trim text in
        let lines := splitLines rawSentences in
        parsedSentences ← parseLines usedSentences lines [];
        mret (Some (slice0 parsedSentences numberOfSentences))
    | _ =>
        throw (js "Unexpected response structure from Gemini or no content generated.")
    end.

(** The [try] block of [generateSentences]. *)
Definition generateAttempt (tenses : list jsstring) (themes : jsstring)
    (numberOfSentences : number) (usedSentences : loc)
    : Async (option (list Parsed)) :=
  response ← fetch (generationPrompt tenses themes numberOfSentences);
  generateFrom numberOfSentences usedSentences response.

(** [generateSentences(tenses, themes, numberOfSentences, usedSentences)]:
    the array of parsed sentences, or [None] for [null]. *)
Definition generateSentences (tenses : list jsstring) (themes : jsstring)
    (numberOfSentences : number) (usedSentences : loc)
    : Async (option (list Parsed)) :=
  update (setIsLoading true);;
  update (setErrorMessage []);;
  tryFinally
    (tryCatch
       (generateAttempt tenses themes numberOfSentences usedSentences)
       (fun message =>
          update (setErrorMessage
                    (js "Failed to generate sentences: " ++ message
                     ++ js ". Please try again."));;
          mret None))
    (onUi (setIsLoading false)).

(** ** [getSentenceReview] *)

Definition reviewPrompt (originalSentenceUk userAnswerEn : jsstring) : jsstring :=
  js "Оригінальне речення українською: " ++ dquote ++ originalSentenceUk ++ dquote
  ++ js ". Відповідь користувача англійською: " ++ dquote ++ userAnswerEn ++ dquote
  ++ js ". Надайте відповідь по наступній структурі: 1. Чи правильне написання речення(Речення написане правильно, Речення написане неправильно, без зайвих слів), 2. "
  ++ dquote ++ userAnswerEn ++ dquote
  ++ js " ---- тут варто написати граматично правильну версію речення, якщо речення написано з помилкою і підкреслити виправлені частини, 3 Стисло описати помилки якщо вони є".

(** The body of the [try] block from the response on. *)
Definition reviewFrom (response : Response) : Async jsstring :=
  if negb (ok response) then
    errorData ← json response;
    throw (apiError response (fst errorData))
  else
    result ← json response;
    match snd result with
    | NullCandidate message :: _ => throw message
    | Content (Some (NoText message :: _)) :: _ => throw message
    | Content (Some (Text text :: _)) :: _ => mret (trim text)
    | _ => throw (js "Unexpected response structure from Gemini.")
    end.

Definition reviewFallback : jsstring :=
  js "Failed to get review. Please try again.".

(** The [try] block of [getSentenceReview]. *)
Definition reviewAttempt (originalSentenceUk userAnswerEn : jsstring)
    : Async jsstring :=
  response ← fetch (reviewPrompt originalSentenceUk userAnswerEn);
  reviewFrom response.

(** [getSentenceReview(originalSentenceUk, userAnswerEn)] *)
Definition getSentenceReview (originalSentenceUk userAnswerEn : jsstring)
    : Async jsstring :=
  update (setIsLoading true);;
  update (setErrorMessage []);;
  tryFinally
    (tryCatch
       (reviewAttempt originalSentenceUk userAnswerEn)
       (fun message =>
          update (setErrorMessage
                    (js "Failed to get review: " ++ message ++ js "."));;
          mret reviewFallback))
    (onUi (setIsLoading false)).

(** ** The handlers

    A handler is a closure of the render that created it: it reads the
    state values of that render (its argument [c]) and writes through the
    setters, which act on the current world. *)

(** [handleTenseChange(tense)], with its functional updater. *)
Definition handleTenseChange (tense : jsstring) : Async unit :=
  update (fun s =>
    setSelectedTenses
      (if bool_decide (tense ∈ selectedTenses s)
       then filter (fun t => t ≠ tense) (selectedTenses s)
       else selectedTenses s ++ [tense]) s).

Definition toPracticeItem (item : Parsed) : PracticeItem.t :=
  {| PracticeItem.originalSentence := sentence item;
     PracticeItem.userAnswer := [];
     PracticeItem.geminiReview := [];
     PracticeItem.tenseUsed := tense item |}.

Definition noTenseMessage : jsstring :=
  js "Будь ласка, оберіть хоча б один час для практики.".
Definition countMessage : jsstring :=
  js "Кількість речень має бути більшою за нуль.".
Definition noSentencesMessage : jsstring :=
  js "Не вдалося згенерувати речення. Спробуйте змінити критерії.".
Definition noAnswerMessage : jsstring :=
  js "Будь ласка, введіть вашу відповідь.".

(** [handleStartPractice] *)
Definition handleStartPractice (c : AppState) : Async unit :=
  if (length (selectedTenses c) =? 0)%nat then
    update (setErrorMessage noTenseMessage)
  else if leNum (numSentences c) (Num 0) then
    update (setErrorMessage countMessage)
  else
    update (setIsLoading true);;
    update (setErrorMessage []);;
    currentGeneratedSet ← newSet;
    update (setGeneratedSentencesSet currentGeneratedSet);;
    generated ← generateSentences (selectedTenses c) (selectedThemes c)
                  (numSentences c) currentGeneratedSet;
    match generated with
    | Some ((_ :: _) as generated) =>
        update (setSentencesData (toPracticeItem <$> generated));;
        update (setCurrentSentenceIndex 0%nat);;
        update (setUserAnswer []);;
        update (setCurrentReview []);;
        update (setCurrentPage practice)
    | _ =>
        update (setErrorMessage noSentencesMessage);;
        update (setSentencesData [])
    end;;
    update (setIsLoading false).

(** Reading a property of [undefined] throws a TypeError (the message is
    the engine's; nothing reads it). *)
Definition undefinedItem : jsstring :=
  js "Cannot read properties of undefined (reading 'originalSentence')".

(** [handleGetReview] *)
Definition handleGetReview (c : AppState) : Async unit :=
  if negb (truthy (trim (userAnswer c))) then
    update (setErrorMessage noAnswerMessage)
  else
    match sentencesData c !! currentSentenceIndex c with
    | None => throw undefinedItem
    | Some item =>
        let originalSentenceUk := PracticeItem.originalSentence item in
        review ← getSentenceReview originalSentenceUk (userAnswer c);
        let updatedSentencesData :=
          <[currentSentenceIndex c :=
              {| PracticeItem.originalSentence := PracticeItem.originalSentence item;
                 PracticeItem.userAnswer := userAnswer c;
                 PracticeItem.geminiReview := review;
                 PracticeItem.tenseUsed := PracticeItem.tenseUsed item |}]>
            (sentencesData c) in
        update (setSentencesData updatedSentencesData);;
        update (setCurrentReview review)
    end.

(** [handleNextOrFinish] *)
Definition handleNextOrFinish (c : AppState) : Async unit :=
  if ltNum (Num (Z.of_nat (currentSentenceIndex c)))
           (subNum (numSentences c) (Num 1)) then
    update (fun s => setCurrentSentenceIndex (S (currentSentenceIndex s)) s);;
    update (setUserAnswer []);;
    update (setCurrentReview []);;
    update (setErrorMessage [])
  else
    update (setCurrentPage start);;
    update (setSelectedTenses []);;
    update (setSelectedThemes []);;
    update (setNumSentences (Num 5));;
    update (setSentencesData []);;
    update (setCurrentSentenceIndex 0%nat);;
    update (setUserAnswer []);;
    update (setCurrentReview []);;
    update (setErrorMessage []);;
    fresh ← newSet;
    update (setGeneratedSentencesSet fresh).

(** ** The rendered controls

    What the user can do depends on the render: the start screen shows
    the configuration fields and the start button, the practice screen
    shows nothing but a notice while [isLoading], and otherwise the answer
    field and the two buttons with their [disabled] conditions. *)

Definition availableTenses : list jsstring :=
  [js "Present Simple"; js "Present Continuous"; js "Present Perfect";
   js "Present Perfect Continuous";
   js "Past Simple"; js "Past Continuous"; js "Past Perfect";
   js "Past Perfect Continuous";
   js "Future Simple"; js "Future Continuous"; js "Future Perfect";
   js "Future Perfect Continuous"].

(** How the mount effect ends: signed in (or no Firebase configured),
    sign-in failed, or initialisation failed. *)
Inductive AuthOutcome : Type := SignedIn | SignInFailed | InitFailed.

Inductive Event : Type :=
| AuthSettled (outcome : AuthOutcome)
| TenseToggled (tense : jsstring)
| ThemesChanged (value : jsstring)
| ShowTenseChanged (checked : bool)
| NumSentencesChanged (value : jsstring)
| StartClicked
| AnswerChanged (value : jsstring)
| ReviewClicked
| NextClicked
| Arrived (r : Fetched).

(** The running component: its world and the async handler waiting on
    the network, if any. *)
Record Machine : Type := {
  world : World;
  pending : option (Fetched -> World -> Step unit)
}.

Definition mounted : Machine := {| world := initialWorld; pending := None |}.

Definition settle (m : Machine) (s : Step unit) : option Machine :=
  match s with
  | Finished w _ => Some {| world := w; pending := pending m |}
  | Failed w _ => Some {| world := w; pending := pending m |}
  | Suspended w _ resume =>
      match pending m with
      | None => Some {| world := w; pending := Some resume |}
      | Some _ => None
      end
  end.

(** Running a handler of the current render. *)
Definition call (h : AppState -> Async unit) (m : Machine) : option Machine :=
  settle m (h (ui (world m)) (world m)).

Definition onStart (s : AppState) : bool :=
  match currentPage s with start => true | practice => false end.

(** The practice screen with its form shown. *)
Definition onPractice (s : AppState) : bool :=
  match currentPage s with start => false | practice => negb (isLoading s) end.

Definition startEnabled (s : AppState) : bool :=
  onStart s && negb (isLoading s || negb (isAuthReady s)).

Definition reviewEnabled (s : AppState) : bool :=
  onPractice s && negb (isLoading s || negb (truthy (trim (userAnswer s)))).

Definition nextEnabled (s : AppState) : bool :=
  onPractice s && negb (isLoading s || negb (truthy (currentReview s))).

Definition authEffect (outcome : AuthOutcome) : Async unit :=
  match outcome with
  | SignedIn => update (setIsAuthReady true)
  | SignInFailed =>
      update (setErrorMessage (js "Authentication error. Please try again later."));;
      update (setIsAuthReady true)
  | InitFailed =>
      update (setErrorMessage (js "Failed to initialize Firebase. Check console."));;
      update (setIsAuthReady true)
  end.

(** One event on the running component; [None] when the render offers
    no such control. *)
Definition dispatch (m : Machine) (e : Event) : option Machine :=
  let s := ui (world m) in
  match e with
  | AuthSettled outcome => call (fun _ => authEffect outcome) m
  | TenseToggled tense =>
      if onStart s && bool_decide (tense ∈ availableTenses)
      then call (fun _ => handleTenseChange tense) m else None
  | ThemesChanged value =>
      if onStart s then call (fun _ => update (setSelectedThemes value)) m
      else None
  | ShowTenseChanged checked =>
      if onStart s then call (fun _ => update (setShowTenseInPractice checked)) m
      else None
  | NumSentencesChanged value =>
      if onStart s
      then call (fun _ => update (setNumSentences (parseInt value))) m
      else None
  | StartClicked =>
      if startEnabled s then call handleStartPractice m else None
  | AnswerChanged value =>
      if onPractice s then call (fun _ => update (setUserAnswer value)) m
      else None
  | ReviewClicked =>
      if reviewEnabled s then call handleGetReview m else None
  | NextClicked =>
      if nextEnabled s then call handleNextOrFinish m else None
  | Arrived r =>
      match pending m with
      | Some resume =>
          settle {| world := world m; pending := None |} (resume r (world m))
      | None => None
      end
  end.

(** A run of events from a machine. *)
Fixpoint dispatchAll (m : Machine) (es : list Event) : option Machine :=
  match es with
  | [] => Some m
  | e :: es' => match dispatch m e with
                | Some m' => dispatchAll m' es'
                | None => None
                end
  end.

(** A successful exchange carrying [text] as its first part. *)
Definition replied (text : jsstring) : Fetched :=
  Responded {| ok := true; status := 200;
               body := Json None [Content (Some [Text text])] |}.

(** The message V8 words for a call of [trim] on [undefined]. *)
Definition typeErrorSample : jsstring :=
  js "Cannot read properties of undefined (reading 'trim')".

(** A successful exchange whose only part has no text. *)
Definition textlessReply : Fetched :=
  Responded {| ok := true; status := 200;
               body := Json None [Content (Some [NoText typeErrorSample])] |}.

(** The text a successful exchange carries: the first part of the first
    candidate of an [ok] response. *)
Definition firstText (r : Fetched) : option jsstring :=
  match r with
  | Responded {| ok := true;
                 body := Json _ (Content (Some (Text text :: _)) :: _) |} =>
      Some text
  | _ => None
  end.

(** The step reached when the pending exchange completes with [r] and
    nothing else happened in between. *)
Definition complete {A : Type} (s : Step A) (r : Fetched) : Step A :=
  match s with
  | Suspended w _ resume => resume r w
  | _ => s
  end.

(** The async function [m], started on [w], ends by throwing when its
    exchange completes with [r]. *)
Definition throws {A : Type} (m : Async A) (w : World) (r : Fetched) : Prop :=
  ∃ w' message, complete (m w) r = Failed w' message.

(** ** The parse loop as a scan

    The loop of [generateSentences] touches one Set object only; on its
    contents it is this scan. *)
Fixpoint scanLines (lines : list jsstring) (used : gset jsstring)
    (acc : list Parsed) : gset jsstring * list Parsed :=
  match lines with
  | [] => (used, acc)
  | line :: rest =>
      match lineMatch line with
      | Some m =>
          if bool_decide (trim (fst m) ∈ used) then scanLines rest used acc
          else scanLines rest ({[trim (fst m)]} ∪ used)
                 (acc ++ [{| sentence := trim (fst m); tense := trim (snd m) |}])
      | None => scanLines rest used acc
      end
  end.

(** The lines the parse loop of a response runs over. *)
Definition responseLines (text : jsstring) : list jsstring :=
  splitLines (trim text).

(** A line of the shape the pattern asks for: it ends with a space, an
    opening bracket, a tag without line terminators and a closing
    bracket. *)
Definition wellFormed (line : jsstring) : Prop :=
  ∃ pre tag, line = pre ++ [32; 91] ++ tag ++ [93] ∧ forallb dot tag = true.

Definition withStore (w : World) (st : list (gset jsstring)) : World :=
  {| ui := ui w; store := st |}.

(** ** The practice screen as rendered *)

(** The caption of the next button. *)
Definition nextLabel (s : AppState) : jsstring :=
  if ltNum (Num (Z.of_nat (currentSentenceIndex s)))
           (subNum (numSentences s) (Num 1))
  then js "Далі" else js "Завершити".

(** The sentence shown: that of the current item, or a notice when the
    item is missing or its sentence is empty. *)
Definition shownSentence (s : AppState) : jsstring :=
  orElse (PracticeItem.originalSentence <$> sentencesData s !! currentSentenceIndex s)
         (js "Не вдалося завантажити речення.").

(** ** What every run keeps *)

(** The session part of the state hangs together: the Set object of the
    state exists; the start screen carries no session; the practice
    screen has sentences; the review shown is the one stored in the
    current item and the items after it have none; no sentence occurs
    twice and every sentence is in the Set of the state. *)
Record Coherent (w : World) : Prop := {
  set_is_live :
    (generatedSentencesSet (ui w) < length (store w))%nat;
  start_is_clear :
    currentPage (ui w) = start →
    sentencesData (ui w) = [] ∧ currentSentenceIndex (ui w) = 0%nat
    ∧ userAnswer (ui w) = [] ∧ currentReview (ui w) = [];
  practice_has_items :
    currentPage (ui w) = practice → sentencesData (ui w) ≠ [];
  review_is_current :
    ∀ item, sentencesData (ui w) !! currentSentenceIndex (ui w) = Some item →
            PracticeItem.geminiReview item = currentReview (ui w);
  later_unreviewed :
    ∀ j item, (currentSentenceIndex (ui w) < j)%nat →
              sentencesData (ui w) !! j = Some item →
              PracticeItem.geminiReview item = [];
  sentences_distinct :
    NoDup (PracticeItem.originalSentence <$> sentencesData (ui w));
  sentences_seen :
    ∀ item, item ∈ sentencesData (ui w) →
            PracticeItem.originalSentence item
            ∈ contents w (generatedSentencesSet (ui w))
}.

(** The selection holds each tense once and only tenses of the list. *)
Definition TensesOk (s : AppState) : Prop :=
  NoDup (selectedTenses s) ∧ selectedTenses s ⊆ availableTenses.

(** Two worlds with the same session and the same store: they differ at
    most in the configuration fields, the error message and the two
    flags. *)
Definition Frame (w w' : World) : Prop :=
  currentPage (ui w) = currentPage (ui w')
  ∧ sentencesData (ui w) = sentencesData (ui w')
  ∧ currentSentenceIndex (ui w) = currentSentenceIndex (ui w')
  ∧ userAnswer (ui w) = userAnswer (ui w')
  ∧ currentReview (ui w) = currentReview (ui w')
  ∧ generatedSentencesSet (ui w) = generatedSentencesSet (ui w')
  ∧ store w = store w'.

(** The waiting handler [k], resumed on any such world with any outcome
    of the exchange, finishes, clears the loading flag and leaves a
    coherent world with the selection and the authentication flag it
    found. *)
Definition Resumes (k : Fetched -> World -> Step unit) (w : World) : Prop :=
  ∀ w', Frame w w' → ∀ r,
    ∃ w2, k r w' = Finished w2 tt
          ∧ Coherent w2
          ∧ isLoading (ui w2) = false
          ∧ selectedTenses (ui w2) = selectedTenses (ui w')
          ∧ isAuthReady (ui w2) = isAuthReady (ui w').

Definition Inv (m : Machine) : Prop :=
  Coherent (world m) ∧ TensesOk (ui (world m))
  ∧ match pending m with
    | None => isLoading (ui (world m)) = false
    | Some k => isLoading (ui (world m)) = true ∧ Resumes k (world m)
    end.

(** The practice screen on an index with no item and no review shown. *)
Definition DeadEnd (m : Machine) : Prop :=
  currentPage (ui (world m)) = practice
  ∧ isLoading (ui (world m)) = false
  ∧ pending m = None
  ∧ sentencesData (ui (world m)) !! currentSentenceIndex (ui (world m)) = None
  ∧ currentReview (ui (world m)) = [].

(** The world in which a client's [try] block starts. *)
Definition loading (w : World) : World :=
  onUi (setErrorMessage []) (onUi (setIsLoading true) w).

(** ** Sample runs *)

(** A reply with two well-formed lines. *)
Definition twoSentences : jsstring :=
  js "Я їм яблуко. [Present Simple]" ++ [10] ++ js "Він біжить. [Present Simple]".

(** Five sentences are asked for (the default count), two come back; the
    user answers both and presses the next button after each review. *)
Definition lastItemReviewed : list Event :=
  [AuthSettled SignedIn; TenseToggled (js "Present Simple");
   StartClicked; Arrived (replied twoSentences);
   AnswerChanged (js "I eat an apple."); ReviewClicked;
   Arrived (replied (js "Correct."));
   NextClicked;
   AnswerChanged (js "He runs."); ReviewClicked;
   Arrived (replied (js "Correct."))].

Definition shortSession : list Event := lastItemReviewed ++ [NextClicked].

(** A reply that opens with a line of introduction and goes on with
    two lines of the asked shape. *)
Definition introducedSentences : jsstring :=
  js "Ось речення:" ++ [10] ++ twoSentences.

(** The count field is emptied before the begin button is pressed. *)
Definition emptiedCount : list Event :=
  [AuthSettled SignedIn; TenseToggled (js "Present Simple");
   NumSentencesChanged []; StartClicked;
   Arrived (replied introducedSentences)].

(** One tense selected, the default count of five. *)
Definition oneTense : AppState :=
  setIsAuthReady true (setSelectedTenses [js "Present Simple"] initialState).

(** A reply whose first line carries a tag nobody asked for and whose
    second line has a tag but no sentence. *)
Definition strayReply : Fetched :=
  replied (js "Hi. [Foo]" ++ [10] ++ js " [Bar]").

(** The practice screen on its only sentence, an answer typed in. *)
Definition answering : AppState :=
  setUserAnswer (js "I eat a apple")
    (setSentencesData
       [{| PracticeItem.originalSentence := js "Я їм яблуко.";
           PracticeItem.userAnswer := [];
           PracticeItem.geminiReview := [];
           PracticeItem.tenseUsed := js "Present Simple" |}]
       (setNumSentences (Num 1) (setCurrentPage practice oneTense))).

Definition answeringWorld : World := {| ui := answering; store := [∅; ∅] |}.

(** The state every finish leaves, but for the flags it does not touch
    and the fresh Set object [l]. *)
Definition resetState (s : AppState) (l : loc) : AppState :=
  {| currentPage := start;
     selectedTenses := [];
     selectedThemes := [];
     numSentences := Num 5;
     currentSentenceIndex := 0%nat;
     sentencesData := [];
     userAnswer := [];
     currentReview := [];
     isLoading := isLoading s;
     errorMessage := [];
     isAuthReady := isAuthReady s;
     generatedSentencesSet := l;
     showTenseInPractice := showTenseInPractice s |}.

(** The world in which [handleStartPractice] calls [generateSentences]:
    loading, no error, and a fresh empty Set object in the state. *)
Definition began (w : World) : World :=
  {| ui := setGeneratedSentencesSet (length (store w))
             (setErrorMessage [] (setIsLoading true (ui w)));
     store := store w ++ [∅] |}.

(** The state [handleStartPractice] leaves when sentences came back. *)
Definition sessionOf (generated : list Parsed) (s : AppState) : AppState :=
  setIsLoading false
    (setCurrentPage practice
       (setCurrentReview []
          (setUserAnswer []
             (setCurrentSentenceIndex 0%nat
                (setSentencesData (toPracticeItem <$> generated) s))))).

(** The state it leaves when none did. *)
Definition noSession (s : AppState) : AppState :=
  setIsLoading false (setSentencesData [] (setErrorMessage noSentencesMessage s)).

Arguments js : simpl never.
Arguments trim : simpl never.
Arguments splitLines : simpl never.
Arguments lineMatch : simpl never.
Arguments numberToString : simpl never.
Arguments generationPrompt : simpl never.
Arguments reviewPrompt : simpl never.
Arguments apiError : simpl never.
Arguments slice0 : simpl never.

(** * Properties *)

(** ** The pattern matcher *)

Lemma firstSome_Some {A B : Type} (f : A -> option B) (l : list A) (b : B) :
  firstSome f l = Some b → ∃ a, a ∈ l ∧ f a = Some b.
Proof.
  induction l as [|a l IH]; simpl; [done|].
  destruct (f a) eqn:E.
  - intros [= ->]. exists a. split; [left | done].
  - intros H. destruct (IH H) as (a' & Hin & Hf).
    exists a'. split; [by right | done].
Qed.

Lemma firstSome_is_Some {A B : Type} (f : A -> option B) (l : list A) (a : A) :
  a ∈ l → is_Some (f a) → is_Some (firstSome f l).
Proof.
  induction l as [|x l IH]; simpl.
  - by intros ?%elem_of_nil.
  - intros [->|Hin]%elem_of_cons [b Hb].
    + rewrite Hb. by eexists.
    + destruct (f x); [by eexists | apply IH; eauto].
Qed.

Lemma dotSplits_elem (s p q : jsstring) :
  (p, q) ∈ dotSplits s ↔ s = p ++ q ∧ forallb dot p = true.
Proof.
  revert p q. induction s as [|c s IH]; intros p q; simpl.
  - rewrite list_elem_of_singleton. split.
    + by intros [= -> ->].
    + intros [H _]. symmetry in H. apply app_eq_nil in H as [-> ->]. done.
  - rewrite elem_of_cons. split.
    + intros [[= -> ->] | Hin]; [done|].
      destruct (dot c) eqn:Hc; [|by apply elem_of_nil in Hin].
      apply list_elem_of_fmap in Hin as ([p' q'] & [= -> ->] & Hin').
      apply IH in Hin' as [-> Hp]. simpl. by rewrite Hc.
    + intros [Hs Hp]. destruct p as [|c' p]; simpl in *.
      * left. by subst.
      * right. injection Hs as <- ->.
        apply andb_true_iff in Hp as [Hc Hp]. rewrite Hc.
        apply list_elem_of_fmap. exists (p, q). split; [done|].
        by apply IH.
Qed.

Lemma matchTag_Some (rest tag : jsstring) :
  matchTag rest = Some tag →
  rest = [32; 91] ++ tag ++ [93] ∧ forallb dot tag = true.
Proof.
  unfold matchTag.
  destruct rest as [|c0 [|c1 r]]; [done..|].
  destruct ((c0 =? 32) && (c1 =? 91)) eqn:Hc; [|done].
  apply andb_true_iff in Hc as [->%N.eqb_eq ->%N.eqb_eq].
  intros ([p q] & Hin & Hf)%firstSome_Some. simpl in Hf.
  destruct q as [|c [|]]; [done| |done].
  destruct (c =? 93) eqn:Hc; [|done].
  apply N.eqb_eq in Hc as ->. injection Hf as ->.
  apply dotSplits_elem in Hin as [-> Hd]. done.
Qed.

Lemma matchTag_complete (tag : jsstring) :
  forallb dot tag = true → is_Some (matchTag ([32; 91] ++ tag ++ [93])).
Proof.
  intros Hd. simpl.
  apply (firstSome_is_Some _ _ (tag, [93])).
  - by apply dotSplits_elem.
  - simpl. by eexists.
Qed.

Lemma matchHere_Some (s a tag : jsstring) :
  matchHere s = Some (a, tag) →
  s = a ++ [32; 91] ++ tag ++ [93]
  ∧ forallb dot a = true ∧ forallb dot tag = true.
Proof.
  unfold matchHere.
  intros ([p q] & Hin & Hf)%firstSome_Some. simpl in Hf.
  destruct (matchTag q) as [t|] eqn:Ht; [|done].
  injection Hf as -> ->.
  apply elem_of_reverse, dotSplits_elem in Hin as [-> Hp].
  apply matchTag_Some in Ht as [-> Hd]. done.
Qed.

Lemma lineMatch_unfold (s : jsstring) :
  lineMatch s = match matchHere s with
                | Some m => Some m
                | None => match s with
                          | [] => None
                          | _ :: s' => lineMatch s'
                          end
                end.
Proof. by destruct s. Qed.

(** A match cuts the line into a skipped prefix, the first group, the
    bracketed second group, and nothing after it. *)
Lemma lineMatch_Some (s a tag : jsstring) :
  lineMatch s = Some (a, tag) →
  ∃ pre, s = pre ++ a ++ [32; 91] ++ tag ++ [93]
         ∧ forallb dot a = true ∧ forallb dot tag = true.
Proof.
  induction s as [|c s IH]; rewrite lineMatch_unfold.
  - destruct (matchHere []) as [m|] eqn:Hm; [|done].
    intros [= ->]. apply matchHere_Some in Hm. exists []. done.
  - destruct (matchHere (c :: s)) as [m|] eqn:Hm.
    + intros [= ->]. apply matchHere_Some in Hm. exists []. done.
    + intros (pre & -> & Hd)%IH. exists (c :: pre). done.
Qed.

(** The pattern finds every well-formed line. *)
Lemma lineMatch_wellFormed (line : jsstring) :
  wellFormed line ↔ is_Some (lineMatch line).
Proof.
  split.
  - intros (pre & tag & -> & Hd).
    induction pre as [|c pre IH].
    + assert (is_Some (matchHere ([32; 91] ++ tag ++ [93]))) as [m Hm].
      { unfold matchHere.
        apply (firstSome_is_Some _ _ ([], [32; 91] ++ tag ++ [93])).
        - apply elem_of_reverse, dotSplits_elem. done.
        - destruct (matchTag_complete tag Hd) as [t Ht].
          cbn [snd fst]. rewrite Ht. by eexists. }
      rewrite lineMatch_unfold, app_nil_l, Hm. by eexists.
    + rewrite lineMatch_unfold, <- app_comm_cons.
      destruct (matchHere _); [by eexists | done].
  - intros [[a tag] Hm]. apply lineMatch_Some in Hm as (pre & -> & _ & Hd).
    exists (pre ++ a), tag. by rewrite <- app_assoc.
Qed.

(** ** Which match the pattern finds *)

(** The first success in a reversed list is the last one in the list. *)
Lemma firstSome_reverse {A B : Type} (f : A -> option B) (l : list A) (b : B) :
  firstSome f (reverse l) = Some b →
  ∃ l1 a l2, l = l1 ++ a :: l2 ∧ f a = Some b ∧ ∀ y, y ∈ l2 → f y = None.
Proof.
  induction l as [|x l IH] using rev_ind; [done|].
  rewrite reverse_snoc. cbn [firstSome].
  destruct (f x) as [b'|] eqn:Hx.
  - intros [= ->]. exists l, x, []. split_and!; [done..|].
    by intros y ?%elem_of_nil.
  - intros (l1 & a & l2 & -> & Ha & Hl2)%IH.
    exists l1, a, (l2 ++ [x]). split_and!; [by rewrite <- app_assoc|done|].
    intros y [Hy|Hy%list_elem_of_singleton]%elem_of_app; [auto|by subst].
Qed.

(** The cuts come shortest first: the cut at position [i] has a first
    half of length [i]. *)
Lemma dotSplits_lookup (s : jsstring) (i : nat) (pq : jsstring * jsstring) :
  dotSplits s !! i = Some pq → length (fst pq) = i.
Proof.
  revert i pq. induction s as [|c s IH]; intros [|i] pq; cbn [dotSplits].
  - by intros [= <-].
  - done.
  - by intros [= <-].
  - rewrite lookup_cons. destruct (dot c); [|done].
    rewrite list_lookup_fmap.
    intros (pq' & Hi & ->)%fmap_Some.
    cbn [fst length]. f_equal. by eapply IH.
Qed.

(** The first group is greedy: the second one holds no later place where
    the bracket could open. *)
Lemma matchHere_greedy (s a tag : jsstring) :
  matchHere s = Some (a, tag) → ∀ u v, tag ≠ u ++ [32; 91] ++ v.
Proof.
  intros Hm u v ->.
  pose proof (matchHere_Some _ _ _ Hm) as (Hs & Ha & Htag).
  unfold matchHere in Hm.
  apply firstSome_reverse in Hm as (l1 & [p q] & l2 & Hl & Hf & Hl2).
  cbn [fst snd] in Hf.
  destruct (matchTag q) as [t|] eqn:Hq; [|done]. injection Hf as -> ->.
  rewrite !forallb_app in Htag. apply andb_true_iff in Htag as [Hu Hv].
  apply andb_true_iff in Hv as [_ Hv].
  assert ((a ++ [32; 91] ++ u, [32; 91] ++ v ++ [93]) ∈ dotSplits s) as Hin.
  { apply dotSplits_elem. split.
    - rewrite Hs, <- !app_assoc. reflexivity.
    - rewrite !forallb_app, Ha, Hu. reflexivity. }
  apply list_elem_of_lookup in Hin as [i Hi].
  pose proof (dotSplits_lookup _ _ _ Hi) as Hlen. cbn [fst] in Hlen.
  pose proof (list_lookup_middle l1 l2 (a, q) (length l1) eq_refl) as Hx.
  rewrite <- Hl in Hx.
  pose proof (dotSplits_lookup _ _ _ Hx) as Hlen1. cbn [fst] in Hlen1.
  rewrite !length_app in Hlen. cbn [length] in Hlen.
  assert (length l1 < i)%nat as Hlt by lia.
  rewrite Hl in Hi.
  rewrite lookup_app_r in Hi by (by apply Nat.lt_le_incl).
  unfold jsstring in *.
  destruct (i - length l1)%nat as [|j] eqn:Hj; [lia|].
  rewrite lookup_cons in Hi.
  apply list_elem_of_lookup_2, Hl2 in Hi. cbn [snd] in Hi.
  destruct (matchTag_complete v Hv) as [t Ht]. by rewrite Ht in Hi.
Qed.

(** A string of the asked shape without a line terminator matches at its
    head. *)
Lemma matchHere_complete (a tag : jsstring) :
  forallb dot a = true → forallb dot tag = true →
  is_Some (matchHere (a ++ [32; 91] ++ tag ++ [93])).
Proof.
  intros Ha Htag. unfold matchHere.
  apply (firstSome_is_Some _ _ (a, [32; 91] ++ tag ++ [93])).
  - apply elem_of_reverse, dotSplits_elem. done.
  - destruct (matchTag_complete tag Htag) as [t Ht].
    cbn [snd fst]. rewrite Ht. by eexists.
Qed.

(** The match is the leftmost one: what it skips is empty or ends in a
    line terminator. *)
Lemma lineMatch_leftmost (s a tag : jsstring) :
  lineMatch s = Some (a, tag) →
  ∃ pre, s = pre ++ a ++ [32; 91] ++ tag ++ [93]
         ∧ forallb dot a = true ∧ forallb dot tag = true
         ∧ (pre = [] ∨ ∃ pre' c, pre = pre' ++ [c] ∧ isLineTerminator c = true)
         ∧ ∀ u v, tag ≠ u ++ [32; 91] ++ v.
Proof.
  induction s as [|c s IH]; rewrite lineMatch_unfold.
  - destruct (matchHere []) as [m|] eqn:Hm; [|done].
    intros [= ->]. pose proof (matchHere_greedy _ _ _ Hm).
    apply matchHere_Some in Hm as (? & ? & ?). exists []. split_and!; auto.
  - destruct (matchHere (c :: s)) as [m|] eqn:Hm.
    + intros [= ->]. pose proof (matchHere_greedy _ _ _ Hm).
      apply matchHere_Some in Hm as (? & ? & ?). exists []. split_and!; auto.
    + intros (pre & -> & Ha & Htag & Hpre & Hg)%IH.
      exists (c :: pre). split_and!; [done..| |done].
      right. destruct Hpre as [->|(pre' & c' & -> & Hc')].
      * exists [], c. split; [done|].
        destruct (isLineTerminator c) eqn:Hc; [done|].
        destruct (matchHere_complete (c :: a) tag) as [m' Hm'];
          [by cbn [forallb]; unfold dot at 1; rewrite Hc|done|].
        cbn [app] in Hm, Hm'. by rewrite Hm in Hm'.
      * exists (c :: pre'), c'. done.
Qed.

(** Two cuts of one line that both skip up to a line terminator and both
    open the bracket at the last possible place are the same cut. *)
Lemma cut_unique (pre a tag pre' a' tag' : jsstring) :
  pre ++ a ++ [32; 91] ++ tag ++ [93] = pre' ++ a' ++ [32; 91] ++ tag' ++ [93] →
  forallb dot a = true → forallb dot tag = true →
  forallb dot a' = true → forallb dot tag' = true →
  (pre = [] ∨ ∃ p c, pre = p ++ [c] ∧ isLineTerminator c = true) →
  (pre' = [] ∨ ∃ p c, pre' = p ++ [c] ∧ isLineTerminator c = true) →
  (∀ u v, tag ≠ u ++ [32; 91] ++ v) →
  (∀ u v, tag' ≠ u ++ [32; 91] ++ v) →
  pre = pre' ∧ a = a' ∧ tag = tag'.
Proof.
  assert (∀ (p : jsstring) c d x y,
            d = p ++ [c] → isLineTerminator c = true →
            x = d ++ y → forallb dot x = true → False) as Hlt.
  { intros p c d x y -> Hc -> Hx.
    rewrite !forallb_app in Hx. cbn [forallb] in Hx. unfold dot at 2 in Hx.
    rewrite Hc in Hx. cbn in Hx.
    by rewrite andb_false_r, ?andb_false_l in Hx. }
  assert (∀ a tag : jsstring,
            forallb dot a = true → forallb dot tag = true →
            forallb dot (a ++ [32; 91] ++ tag ++ [93]) = true) as Hdot.
  { intros x y Hx Hy. rewrite !forallb_app, Hx, Hy. reflexivity. }
  assert (∀ (a tag a' tag' d : jsstring),
            a' = a ++ d → d ≠ [] →
            [32; 91] ++ tag ++ [93] = d ++ [32; 91] ++ tag' ++ [93] →
            ∃ u v, tag = u ++ [32; 91] ++ v) as Hopen.
  { intros x y x' y' d -> Hd Heq.
    destruct d as [|d0 [|d1 d]]; [done| |].
    - cbn in Heq. injection Heq as -> Heq. discriminate Heq.
    - cbn [app] in Heq. injection Heq as <- <- Heq.
      change (y ++ [93] = d ++ [32; 91] ++ y' ++ [93]) in Heq.
      rewrite !app_assoc in Heq.
      apply app_inj_tail in Heq as [Heq _].
      exists d, y'. rewrite Heq. by rewrite <- app_assoc. }
  intros Heq Ha Htag Ha' Htag' Hpre Hpre' Hg Hg'.
  assert (pre = pre') as <-.
  { apply app_eq_inv in Heq as [(d & -> & Hd)|(d & -> & Hd)].
    - destruct d as [|d0 d] using rev_ind; [by rewrite app_nil_r|].
      exfalso. destruct Hpre as [Hpre|(p & c & Hpre & Hc)].
      + rewrite app_assoc in Hpre. by apply app_eq_nil in Hpre as [_ ?].
      + rewrite app_assoc in Hpre. apply app_inj_tail in Hpre as [_ ->].
        by eapply (Hlt d c (d ++ [c])); [done|done|exact Hd|apply Hdot].
    - destruct d as [|d0 d] using rev_ind; [by rewrite app_nil_r|].
      exfalso. destruct Hpre' as [Hpre'|(p & c & Hpre' & Hc)].
      + rewrite app_assoc in Hpre'. by apply app_eq_nil in Hpre' as [_ ?].
      + rewrite app_assoc in Hpre'. apply app_inj_tail in Hpre' as [_ ->].
        by eapply (Hlt d c (d ++ [c])); [done|done|exact Hd|apply Hdot]. }
  apply app_inv_head in Heq.
  assert (a = a') as <-.
  { apply app_eq_inv in Heq as [(d & -> & Hd)|(d & -> & Hd)].
    - destruct d as [|d0 d]; [by rewrite app_nil_r|]. exfalso.
      destruct (Hopen a' tag' (a' ++ d0 :: d) tag (d0 :: d)) as (u & v & Hu);
        [done..|]. by eapply Hg'.
    - destruct d as [|d0 d]; [by rewrite app_nil_r|]. exfalso.
      destruct (Hopen a tag (a ++ d0 :: d) tag' (d0 :: d)) as (u & v & Hu);
        [done..|]. by eapply Hg. }
  apply app_inv_head in Heq. cbn [app] in Heq. injection Heq as Heq.
  apply app_inj_tail in Heq as [-> _]. done.
Qed.

(** The match of a line, told exactly: the first group is what lies
    between the last line terminator of the line and the last place where
    a space and an opening bracket stand, the second group what lies
    between that bracket and the closing one that ends the line. *)
Lemma lineMatch_exactly (line a tag : jsstring) :
  lineMatch line = Some (a, tag) ↔
  ∃ pre, line = pre ++ a ++ [32; 91] ++ tag ++ [93]
         ∧ forallb dot a = true ∧ forallb dot tag = true
         ∧ (pre = [] ∨ ∃ pre' c, pre = pre' ++ [c] ∧ isLineTerminator c = true)
         ∧ ∀ u v, tag ≠ u ++ [32; 91] ++ v.
Proof.
  split; [apply lineMatch_leftmost|].
  intros (pre & Hline & Ha & Htag & Hpre & Hg).
  assert (wellFormed line) as Hwf.
  { exists (pre ++ a), tag. by rewrite <- app_assoc. }
  apply lineMatch_wellFormed in Hwf as [[a' tag'] Hm].
  rewrite Hm. apply lineMatch_leftmost in Hm
    as (pre' & Hline' & Ha' & Htag' & Hpre' & Hg').
  rewrite Hline in Hline'.
  destruct (cut_unique _ _ _ _ _ _ Hline' Ha Htag Ha' Htag' Hpre Hpre' Hg Hg')
    as (_ & -> & ->).
  reflexivity.
Qed.

(** The pattern on sample lines: the tag is the last bracket of the
    line, the first group takes all that precedes it, and a line that does
    not end in a bracket, or has no space before it, is not matched. *)
Example lineMatch_samples :
  lineMatch (js "Я їм яблуко. [Present Simple]")
  = Some (js "Я їм яблуко.", js "Present Simple")
  ∧ lineMatch (js "a [b] [c]") = Some (js "a [b]", js "c")
  ∧ lineMatch (js "a [b]]") = Some (js "a", js "b]")
  ∧ lineMatch (js " [b]") = Some ([], js "b")
  ∧ lineMatch (js "[b]") = None
  ∧ lineMatch (js "a [b] ") = None
  ∧ lineMatch (js "1. Hi") = None
  ∧ lineMatch (js "a [b]" ++ [13]) = None.
Proof. split_and!; vm_compute; reflexivity. Qed.

Example parseInt_samples :
  parseInt (js "7") = Num 7
  ∧ parseInt (js " 42px") = Num 42
  ∧ parseInt (js "-3") = Num (-3)
  ∧ parseInt (js "0x1F") = Num 31
  ∧ parseInt (js "1e3") = Num 1
  ∧ parseInt (js "2.5") = Num 2
  ∧ parseInt (js "-") = NaN
  ∧ parseInt (js "e") = NaN.
Proof. split_and!; vm_compute; reflexivity. Qed.

Example trim_samples :
  trim (js "  a b  ") = js "a b"
  ∧ trim ([10; 9] ++ js "x" ++ [13; 10]) = js "x"
  ∧ trim (js "   ") = []
  ∧ splitLines (js "a" ++ [10; 10] ++ js "b") = [js "a"; []; js "b"].
Proof. split_and!; vm_compute; reflexivity. Qed.

(** ** The parse loop *)

Lemma alter_as_insert {A : Type} (f : A -> A) (l : list A) (i : nat) (x : A) :
  l !! i = Some x → alter f i l = <[i := f x]> l.
Proof.
  intros Hx. apply list_eq. intros j.
  destruct (decide (i = j)) as [<-|Hne].
  - rewrite list_lookup_alter_eq, Hx, list_lookup_insert_eq; [done|].
    by eapply lookup_lt_Some.
  - by rewrite list_lookup_alter_ne, list_lookup_insert_ne.
Qed.

Lemma withStore_id (w : World) (l : loc) (U : gset jsstring) :
  store w !! l = Some U → withStore w (<[l := U]> (store w)) = w.
Proof.
  intros H. unfold withStore. rewrite list_insert_id by done. by destruct w.
Qed.

(** On a world that holds the Set object, the loop returns the scan of
    its contents and leaves everything else alone. *)
Lemma parseLines_scan (l : loc) (lines : list jsstring) (acc : list Parsed)
    (w : World) (U : gset jsstring) :
  store w !! l = Some U →
  parseLines l lines acc w =
    Finished (withStore w (<[l := fst (scanLines lines U acc)]> (store w)))
             (snd (scanLines lines U acc)).
Proof.
  revert acc w U. induction lines as [|line rest IH]; intros acc w U HU.
  - simpl. by rewrite withStore_id.
  - cbn [parseLines scanLines]. destruct (lineMatch line) as [m|]; [|by apply IH].
    unfold mbind, Async_bind, setHas. cbn [bindStep].
    unfold contents. rewrite HU. change (default ∅ (Some U)) with U.
    destruct (bool_decide (trim (fst m) ∈ U)); cbn [negb]; [by apply IH|].
    unfold setAdd. cbn [bindStep].
    rewrite (IH _ _ ({[trim (fst m)]} ∪ U)).
    + cbn [store ui]. rewrite (alter_as_insert _ (store w) l U HU).
      unfold withStore. cbn [store ui]. by rewrite list_insert_insert_eq.
    + cbn [store]. by rewrite list_lookup_alter_eq, HU.
Qed.

(** The scan only adds to the Set. *)
Lemma scanLines_mono (lines : list jsstring) (U : gset jsstring)
    (acc : list Parsed) :
  U ⊆ fst (scanLines lines U acc).
Proof.
  revert U acc. induction lines as [|line rest IH]; intros U acc; simpl; [done|].
  destruct (lineMatch line) as [m|]; [|done].
  case_bool_decide; [done|].
  etrans; [|apply IH]. apply union_subseteq_r.
Qed.

(** Every sentence the pattern finds ends up in the Set. *)
Lemma scanLines_records (lines : list jsstring) (U : gset jsstring)
    (acc : list Parsed) (line : jsstring) (m : jsstring * jsstring) :
  line ∈ lines → lineMatch line = Some m →
  trim (fst m) ∈ fst (scanLines lines U acc).
Proof.
  revert U acc. induction lines as [|x rest IH]; intros U acc Hin Hm.
  - by apply elem_of_nil in Hin.
  - apply elem_of_cons in Hin as [<-|Hin]; simpl.
    + rewrite Hm. case_bool_decide as Hd.
      * by apply scanLines_mono.
      * apply scanLines_mono, elem_of_union. left. by apply elem_of_singleton.
    + destruct (lineMatch x); [case_bool_decide|]; by apply IH.
Qed.

(** The scan extends the accumulated array; what it appends is new. *)
Lemma scanLines_extends (lines : list jsstring) (U : gset jsstring)
    (acc : list Parsed) :
  ∃ new, snd (scanLines lines U acc) = acc ++ new
    ∧ fst (scanLines lines U acc) = U ∪ list_to_set (sentence <$> new)
    ∧ NoDup (sentence <$> new)
    ∧ (∀ p, p ∈ new → sentence p ∉ U)
    ∧ (∀ p, p ∈ new → ∃ line m, line ∈ lines ∧ lineMatch line = Some m
          ∧ p = {| sentence := trim (fst m); tense := trim (snd m) |}).
Proof.
  revert U acc. induction lines as [|line rest IH]; intros U acc; simpl.
  - exists []. rewrite app_nil_r. simpl. split_and!.
    + done.
    + by rewrite (right_id_L ∅ (∪)).
    + constructor.
    + by intros ? ?%elem_of_nil.
    + by intros ? ?%elem_of_nil.
  - destruct (lineMatch line) as [m|] eqn:Hm.
    + case_bool_decide as Hd.
      * destruct (IH U acc) as (new & H1 & H2 & H3 & H4 & H5).
        exists new. split_and!; [done..|].
        intros p Hp. destruct (H5 p Hp) as (ln & m' & ? & ? & ?).
        exists ln, m'. split_and!; [by right|done..].
      * set (it := {| sentence := trim (fst m); tense := trim (snd m) |}).
        destruct (IH ({[trim (fst m)]} ∪ U) (acc ++ [it]))
          as (new & H1 & H2 & H3 & H4 & H5).
        exists (it :: new). split_and!.
        -- rewrite H1. by rewrite <- app_assoc.
        -- rewrite H2. simpl.
           by rewrite (comm_L (∪) {[trim (fst m)]} U), <- (assoc_L (∪)).
        -- simpl. constructor; [|done].
           intros (p & Hs & Hp)%list_elem_of_fmap.
           apply H4 in Hp. rewrite <- Hs in Hp.
           apply Hp, elem_of_union. left. by apply elem_of_singleton.
        -- intros p [->|Hp]%elem_of_cons; [done|].
           apply H4 in Hp. intros HU. apply Hp, elem_of_union. by right.
        -- intros p [->|Hp]%elem_of_cons.
           ++ exists line, m. split_and!; [by left|done..].
           ++ destruct (H5 p Hp) as (ln & m' & ? & ? & ?).
              exists ln, m'. split_and!; [by right|done..].
    + destruct (IH U acc) as (new & H1 & H2 & H3 & H4 & H5).
      exists new. split_and!; [done..|].
      intros p Hp. destruct (H5 p Hp) as (ln & m' & ? & ? & ?).
      exists ln, m'. split_and!; [by right|done..].
Qed.

(** A line whose sentence is not in the Set yet makes the array grow. *)
Lemma scanLines_grows (lines : list jsstring) (U : gset jsstring)
    (acc : list Parsed) (line : jsstring) (m : jsstring * jsstring) :
  line ∈ lines → lineMatch line = Some m → trim (fst m) ∉ U →
  (length acc < length (snd (scanLines lines U acc)))%nat.
Proof.
  revert U acc. induction lines as [|x rest IH]; intros U acc Hin Hm HU.
  - by apply elem_of_nil in Hin.
  - simpl. destruct (lineMatch x) as [mx|] eqn:Hx.
    + case_bool_decide as Hd.
      * apply elem_of_cons in Hin as [<-|Hin]; [|by eapply IH].
        rewrite Hm in Hx. injection Hx as <-. done.
      * destruct (scanLines_extends rest ({[trim (fst mx)]} ∪ U)
                    (acc ++ [{| sentence := trim (fst mx);
                                tense := trim (snd mx) |}]))
          as (new & -> & _).
        rewrite !length_app. simpl. lia.
    + apply elem_of_cons in Hin as [<-|Hin]; [congruence|by eapply IH].
Qed.

(** ** The two clients *)

(** Every shape of an exchange: rejected, not [ok], not JSON, null,
    without a first text, or with one; [H] tells which of them carry a
    text. *)
Ltac exchange_cases r H :=
  destruct r as [?|[[] ? [?|?|? [|[[[|[?|?] ?]|]|?] ?]]]];
  try discriminate H.

Lemma generateSentences_success (tenses : list jsstring) (themes : jsstring)
    (n : number) (l : loc) (w : World) (U : gset jsstring) (r : Fetched)
    (text : jsstring) :
  store w !! l = Some U → firstText r = Some text →
  complete (generateSentences tenses themes n l w) r =
    Finished
      (onUi (setIsLoading false)
         (withStore (loading w)
            (<[l := fst (scanLines (responseLines text) U [])]> (store w))))
      (Some (slice0 (snd (scanLines (responseLines text) U [])) n)).
Proof.
  intros HU Hr.
  exchange_cases r Hr.
  injection Hr as ->.
  unfold generateSentences, generateAttempt, tryFinally, tryCatch, fetch,
    generateFrom, json.
  unfold mbind, Async_bind, mret, Async_ret, update. simpl.
  rewrite (parseLines_scan l _ [] (loading w) U) by done.
  reflexivity.
Qed.

Lemma generateSentences_failure (tenses : list jsstring) (themes : jsstring)
    (n : number) (l : loc) (w : World) (r : Fetched) :
  firstText r = None →
  ∃ message,
    throws (generateAttempt tenses themes n l) (loading w) r
    ∧ complete (generateSentences tenses themes n l w) r =
      Finished
        (onUi (setIsLoading false)
           (onUi (setErrorMessage
                    (js "Failed to generate sentences: " ++ message
                     ++ js ". Please try again.")) (loading w)))
        None.
Proof.
  intros Hr. unfold throws.
  exchange_cases r Hr;
    eexists; (split; [eexists _, _; reflexivity | reflexivity]).
Qed.

Lemma reviewAttempt_success (o a : jsstring) (w : World) (r : Fetched)
    (text : jsstring) :
  firstText r = Some text →
  complete (reviewAttempt o a w) r = Finished w (trim text).
Proof.
  intros Hr.
  exchange_cases r Hr.
  by injection Hr as ->.
Qed.

Lemma reviewAttempt_failure (o a : jsstring) (w : World) (r : Fetched) :
  firstText r = None → ∃ message, complete (reviewAttempt o a w) r = Failed w message.
Proof.
  intros Hr.
  exchange_cases r Hr;
    eexists; reflexivity.
Qed.

(** The [try] block of the review client throws exactly when the
    exchange brings no text. *)
Lemma reviewAttempt_throws (o a : jsstring) (w : World) (r : Fetched) :
  throws (reviewAttempt o a) w r ↔ firstText r = None.
Proof.
  split.
  - intros (w' & message & H). destruct (firstText r) as [text|] eqn:Hr; [|done].
    by rewrite (reviewAttempt_success o a w r text Hr) in H.
  - intros Hr. destruct (reviewAttempt_failure o a w r Hr) as [message H].
    by exists w, message.
Qed.

Lemma getSentenceReview_run (o a : jsstring) (w : World) (r : Fetched) :
  complete (getSentenceReview o a w) r =
    tryFinally
      (tryCatch (fun w' => complete (reviewAttempt o a w') r)
         (fun message =>
            update (setErrorMessage
                      (js "Failed to get review: " ++ message ++ js "."));;
            mret reviewFallback))
      (onUi (setIsLoading false)) (loading w).
Proof. reflexivity. Qed.

Lemma getSentenceReview_success (o a : jsstring) (w : World) (r : Fetched)
    (text : jsstring) :
  firstText r = Some text →
  complete (getSentenceReview o a w) r =
    Finished (onUi (setIsLoading false) (loading w)) (trim text).
Proof.
  intros Hr. rewrite getSentenceReview_run. unfold tryFinally, tryCatch.
  by rewrite (reviewAttempt_success o a _ r text Hr).
Qed.

Lemma getSentenceReview_failure (o a : jsstring) (w : World) (r : Fetched) :
  firstText r = None →
  ∃ message,
    complete (getSentenceReview o a w) r =
      Finished
        (onUi (setIsLoading false)
           (onUi (setErrorMessage
                    (js "Failed to get review: " ++ message ++ js "."))
              (loading w)))
        reviewFallback.
Proof.
  intros Hr. rewrite getSentenceReview_run. unfold tryFinally, tryCatch.
  destruct (reviewAttempt_failure o a (loading w) r Hr) as [message ->].
  by exists message.
Qed.

(** ** [handleStartPractice] *)

Lemma began_lookup (w : World) : store (began w) !! length (store w) = Some ∅.
Proof. simpl. by rewrite list_lookup_middle. Qed.

(** Past its two guards the handler issues the generation request. *)
Lemma handleStartPractice_suspends (c : AppState) (w : World) :
  selectedTenses c ≠ [] → leNum (numSentences c) (Num 0) = false →
  ∃ resume,
    handleStartPractice c w =
      Suspended (loading (began w))
        (generationPrompt (selectedTenses c) (selectedThemes c) (numSentences c))
        resume.
Proof.
  intros Ht Hn. unfold handleStartPractice. rewrite Hn.
  destruct (selectedTenses c) as [|t ts]; [done|].
  eexists. reflexivity.
Qed.

Lemma complete_bind {A B : Type} (w : World) (q : jsstring)
    (k : Fetched -> World -> Step A) (f : A -> Async B) (r : Fetched) :
  complete (bindStep (Suspended w q k) f) r = bindStep (k r w) f.
Proof. reflexivity. Qed.

Lemma generateSentences_suspends (tenses : list jsstring) (themes : jsstring)
    (n : number) (l : loc) (w : World) :
  ∃ resume,
    generateSentences tenses themes n l w =
      Suspended (loading w) (generationPrompt tenses themes n) resume.
Proof. eexists. reflexivity. Qed.

(** Past the guards, the handler is the call of [generateSentences] on
    the world [began w], followed by one of two endings. *)
Lemma handleStartPractice_unfold (c : AppState) (w : World) :
  selectedTenses c ≠ [] → leNum (numSentences c) (Num 0) = false →
  ∃ ending,
    handleStartPractice c w =
      bindStep (generateSentences (selectedTenses c) (selectedThemes c)
                  (numSentences c) (length (store w)) (began w)) ending
    ∧ (∀ g gs w', ending (Some (g :: gs)) w' =
                    Finished (onUi (sessionOf (g :: gs)) w') tt)
    ∧ (∀ w', ending (Some []) w' = Finished (onUi noSession w') tt)
    ∧ (∀ w', ending None w' = Finished (onUi noSession w') tt).
Proof.
  intros Ht Hn. unfold handleStartPractice. rewrite Hn.
  destruct (selectedTenses c) as [|t ts] eqn:Hts; [done|].
  eexists. split; [reflexivity|]. split_and!; reflexivity.
Qed.

Lemma handleStartPractice_success (c : AppState) (w : World) (r : Fetched)
    (text : jsstring) :
  selectedTenses c ≠ [] → leNum (numSentences c) (Num 0) = false →
  firstText r = Some text →
  let scan := scanLines (responseLines text) ∅ [] in
  let generated := slice0 (snd scan) (numSentences c) in
  complete (handleStartPractice c w) r =
    Finished
      (onUi (match generated with [] => noSession | _ => sessionOf generated end)
         (onUi (setIsLoading false)
            (withStore (loading (began w))
               (<[length (store w) := fst scan]> (store (began w))))))
      tt.
Proof.
  intros Ht Hn Hr scan generated.
  destruct (handleStartPractice_unfold c w Ht Hn) as (ending & -> & H1 & H2 & H3).
  pose proof (generateSentences_success (selectedTenses c) (selectedThemes c)
                (numSentences c) _ _ ∅ r text (began_lookup w) Hr) as Hg.
  destruct (generateSentences_suspends (selectedTenses c) (selectedThemes c)
              (numSentences c) (length (store w)) (began w)) as [k Hk].
  rewrite Hk in Hg |- *. rewrite complete_bind. cbn [complete] in Hg.
  rewrite Hg. cbn [bindStep]. fold scan. fold generated.
  destruct generated; [apply H2 | apply H1].
Qed.

Lemma handleStartPractice_failure (c : AppState) (w : World) (r : Fetched) :
  selectedTenses c ≠ [] → leNum (numSentences c) (Num 0) = false →
  firstText r = None →
  ∃ message,
    complete (handleStartPractice c w) r =
      Finished
        (onUi noSession
           (onUi (setIsLoading false)
              (onUi (setErrorMessage
                       (js "Failed to generate sentences: " ++ message
                        ++ js ". Please try again.")) (loading (began w)))))
        tt.
Proof.
  intros Ht Hn Hr.
  destruct (handleStartPractice_unfold c w Ht Hn) as (ending & -> & H1 & H2 & H3).
  destruct (generateSentences_failure (selectedTenses c) (selectedThemes c)
              (numSentences c) (length (store w)) (began w) r Hr)
    as (message & _ & Hg).
  destruct (generateSentences_suspends (selectedTenses c) (selectedThemes c)
              (numSentences c) (length (store w)) (began w)) as [k Hk].
  rewrite Hk in Hg |- *. rewrite complete_bind. cbn [complete] in Hg.
  rewrite Hg. cbn [bindStep]. exists message. apply H3.
Qed.

(** ** Small facts *)

Lemma slice0_take {A : Type} (l : list A) (n : number) :
  ∃ k, slice0 l n = take k l.
Proof.
  destruct n as [z|]; unfold slice0.
  - destruct (z <? 0)%Z; eauto.
  - by exists 0%nat.
Qed.

Lemma slice0_positive {A : Type} (l : list A) (z : Z) :
  (1 ≤ z)%Z → slice0 l (Num z) = take (Z.to_nat z) l.
Proof. intros Hz. unfold slice0. by destruct (Z.ltb_spec z 0); [lia|]. Qed.

Lemma js_prefix_nonempty (s : jsstring) (rest : jsstring) :
  s ≠ [] → s ++ rest ≠ [].
Proof. by destruct s. Qed.

Lemma noSentencesMessage_nonempty : noSentencesMessage ≠ [].
Proof. by vm_compute. Qed.

Lemma reviewFallback_nonempty : reviewFallback ≠ [].
Proof. by vm_compute. Qed.

(** ** The finish branch *)

(** Whenever the index has reached the count minus one, the next button
    finishes: start screen, default configuration, nothing left of the
    session, and a new empty Set object. *)
Lemma handleNextOrFinish_finish (c : AppState) (w : World) :
  ltNum (Num (Z.of_nat (currentSentenceIndex c))) (subNum (numSentences c) (Num 1))
    = false →
  handleNextOrFinish c w =
    Finished {| ui := resetState (ui w) (length (store w));
                store := store w ++ [∅] |} tt.
Proof. intros H. unfold handleNextOrFinish. rewrite H. reflexivity. Qed.

(** Below that, it moves one sentence forward and clears the answer, the
    review and the error. *)
Lemma handleNextOrFinish_advance (c : AppState) (w : World) :
  ltNum (Num (Z.of_nat (currentSentenceIndex c))) (subNum (numSentences c) (Num 1))
    = true →
  handleNextOrFinish c w =
    Finished
      (onUi (fun s => setErrorMessage []
                        (setCurrentReview []
                           (setUserAnswer []
                              (setCurrentSentenceIndex
                                 (S (currentSentenceIndex s)) s)))) w)
      tt.
Proof. intros H. unfold handleNextOrFinish. rewrite H. reflexivity. Qed.

(** The next button is offered only under a shown review. *)
Lemma next_needs_review (m m' : Machine) :
  dispatch m NextClicked = Some m' →
  currentReview (ui (world m)) ≠ [] ∧ isLoading (ui (world m)) = false.
Proof.
  simpl. unfold nextEnabled, onPractice.
  destruct (currentPage _), (isLoading _), (currentReview _); done.
Qed.

(** C1. The sentence index is meant to stay inside the list of practice
    items; it does not when fewer sentences come back than were asked
    for.  With the default count of five and a reply of two sentences,
    the user reviews both, presses next after each, and lands on index 2
    of a list of length 2: no item is there, and a further review request
    throws on the missing item. *)
Theorem index_leaves_the_session :
  ∃ m,
    dispatchAll mounted shortSession = Some m
    ∧ currentPage (ui (world m)) = practice
    ∧ numSentences (ui (world m)) = Num 5
    ∧ length (sentencesData (ui (world m))) = 2%nat
    ∧ currentSentenceIndex (ui (world m)) = 2%nat
    ∧ sentencesData (ui (world m)) !! currentSentenceIndex (ui (world m)) = None
    ∧ handleGetReview (setUserAnswer (js "Again.") (ui (world m))) (world m)
      = Failed (world m) undefinedItem.
Proof.
  eexists. split; [vm_compute; reflexivity|].
  split_and!; vm_compute; reflexivity.
Qed.

(** C8. Finishing is meant to happen on the next button at the last
    item.  In the session of two sentences out of five requested, the
    user stands on the last item (index 1 of 2) with its review shown;
    the next button then neither returns to the start screen nor resets
    anything, because the handler compares the index with the requested
    count, not with the length of the list. *)
Theorem last_item_does_not_finish :
  ∃ m m',
    dispatchAll mounted lastItemReviewed = Some m
    ∧ S (currentSentenceIndex (ui (world m)))
      = length (sentencesData (ui (world m)))
    ∧ currentReview (ui (world m)) = js "Correct."
    ∧ dispatch m NextClicked = Some m'
    ∧ currentPage (ui (world m')) = practice
    ∧ selectedTenses (ui (world m')) = [js "Present Simple"]
    ∧ length (sentencesData (ui (world m'))) = 2%nat
    ∧ js "Він біжить."
      ∈ contents (world m') (generatedSentencesSet (ui (world m'))).
Proof.
  eexists _, _. split; [vm_compute; reflexivity|].
  split_and!; vm_compute; reflexivity.
Qed.

(** ** [handleGetReview] *)

Lemma handleGetReview_unfold (c : AppState) (w : World) (item : PracticeItem.t) :
  truthy (trim (userAnswer c)) = true →
  sentencesData c !! currentSentenceIndex c = Some item →
  handleGetReview c w =
    bindStep
      (getSentenceReview (PracticeItem.originalSentence item) (userAnswer c) w)
      (fun review =>
         update
           (fun s =>
              setCurrentReview review
                (setSentencesData
                   (<[currentSentenceIndex c :=
                       {| PracticeItem.originalSentence :=
                            PracticeItem.originalSentence item;
                          PracticeItem.userAnswer := userAnswer c;
                          PracticeItem.geminiReview := review;
                          PracticeItem.tenseUsed := PracticeItem.tenseUsed item |}]>
                      (sentencesData c)) s))).
Proof.
  intros Ha Hi. unfold handleGetReview. rewrite Ha, Hi. reflexivity.
Qed.

Lemma getSentenceReview_suspends (o a : jsstring) (w : World) :
  ∃ resume,
    getSentenceReview o a w = Suspended (loading w) (reviewPrompt o a) resume.
Proof. eexists. reflexivity. Qed.

(** The client never throws: whatever the exchange brings, the caller
    gets a string. *)
Lemma getSentenceReview_returns (o a : jsstring) (w : World) (r : Fetched) :
  ∃ w' review, complete (getSentenceReview o a w) r = Finished w' review.
Proof.
  destruct (firstText r) as [text|] eqn:Hr.
  - rewrite (getSentenceReview_success o a w r text Hr). eauto.
  - destruct (getSentenceReview_failure o a w r Hr) as [message ->]. eauto.
Qed.

Lemma handleGetReview_run (c : AppState) (w w1 : World) (r : Fetched)
    (item : PracticeItem.t) (review : jsstring) :
  truthy (trim (userAnswer c)) = true →
  sentencesData c !! currentSentenceIndex c = Some item →
  complete (getSentenceReview (PracticeItem.originalSentence item)
              (userAnswer c) w) r = Finished w1 review →
  complete (handleGetReview c w) r =
    Finished
      (onUi (fun s =>
               setCurrentReview review
                 (setSentencesData
                    (<[currentSentenceIndex c :=
                        {| PracticeItem.originalSentence :=
                             PracticeItem.originalSentence item;
                           PracticeItem.userAnswer := userAnswer c;
                           PracticeItem.geminiReview := review;
                           PracticeItem.tenseUsed :=
                             PracticeItem.tenseUsed item |}]>
                       (sentencesData c)) s)) w1)
      tt.
Proof.
  intros Ha Hi Hg. rewrite (handleGetReview_unfold c w item Ha Hi).
  destruct (getSentenceReview_suspends (PracticeItem.originalSentence item)
              (userAnswer c) w) as [k Hk].
  rewrite Hk in Hg |- *. rewrite complete_bind. cbn [complete] in Hg.
  rewrite Hg. reflexivity.
Qed.

(** C2, as the code has it.  A review request with a non-blank answer
    on an existing item always completes, and stores one and the same
    text as the item's review and as the displayed review (the item also
    takes the answer).  When the exchange fails that text is the fixed
    fallback sentence and the error message is set; when it succeeds it
    is the trimmed text of the reply and the error message is empty. *)
Theorem review_is_stored_in_both (c : AppState) (w : World) (r : Fetched)
    (item : PracticeItem.t) :
  truthy (trim (userAnswer c)) = true →
  sentencesData c !! currentSentenceIndex c = Some item →
  ∃ w' review,
    complete (handleGetReview c w) r = Finished w' tt
    ∧ currentReview (ui w') = review
    ∧ sentencesData (ui w') !! currentSentenceIndex c
      = Some {| PracticeItem.originalSentence := PracticeItem.originalSentence item;
                PracticeItem.userAnswer := userAnswer c;
                PracticeItem.geminiReview := review;
                PracticeItem.tenseUsed := PracticeItem.tenseUsed item |}
    ∧ isLoading (ui w') = false
    ∧ (throws (reviewAttempt (PracticeItem.originalSentence item) (userAnswer c))
         (loading w) r →
       review = reviewFallback ∧ errorMessage (ui w') ≠ [])
    ∧ (∀ text, firstText r = Some text →
       review = trim text ∧ errorMessage (ui w') = []).
Proof.
  intros Ha Hi.
  assert (currentSentenceIndex c < length (sentencesData c))%nat as Hlt
    by (by eapply lookup_lt_Some).
  destruct (firstText r) as [text|] eqn:Hr.
  - pose proof (getSentenceReview_success (PracticeItem.originalSentence item)
                  (userAnswer c) w r text Hr) as Hg.
    rewrite (handleGetReview_run c w _ r item (trim text) Ha Hi Hg).
    eexists _, (trim text). split; [reflexivity|].
    split_and!; try done.
    + simpl. by rewrite list_lookup_insert_eq.
    + intros Ht%reviewAttempt_throws. congruence.
    + by intros ? [= <-].
  - destruct (getSentenceReview_failure (PracticeItem.originalSentence item)
                (userAnswer c) w r Hr) as [message Hg].
    rewrite (handleGetReview_run c w _ r item reviewFallback Ha Hi Hg).
    eexists _, reviewFallback. split; [reflexivity|].
    split_and!; try done.
    simpl. by rewrite list_lookup_insert_eq.
Qed.

Lemma review_is_stored_in_both_witness :
  ∃ w' review,
    complete (handleGetReview answering answeringWorld) (replied (js " Correct. "))
      = Finished w' tt
    ∧ currentReview (ui w') = review
    ∧ review = js "Correct.".
Proof.
  destruct (review_is_stored_in_both answering answeringWorld
              (replied (js " Correct. "))
              {| PracticeItem.originalSentence := js "Я їм яблуко.";
                 PracticeItem.userAnswer := [];
                 PracticeItem.geminiReview := [];
                 PracticeItem.tenseUsed := js "Present Simple" |})
    as (w' & review & H1 & H2 & _ & _ & _ & H6).
  - vm_compute. reflexivity.
  - vm_compute. reflexivity.
  - exists w', review. split; [exact H1|]. split; [exact H2|].
    destruct (H6 (js " Correct. ")) as [H7 _].
    + vm_compute. reflexivity.
    + rewrite H7. vm_compute. reflexivity.
Defined.

(** C2, as stated, fails: with the answer typed in and the network down,
    the review request stores the fallback sentence, not the empty
    string, in the item and in the displayed review. *)
Lemma failed_review_is_not_left_empty :
  ∃ w',
    complete (handleGetReview answering answeringWorld)
      (NetworkError (js "Failed to fetch")) = Finished w' tt
    ∧ throws (reviewAttempt (js "Я їм яблуко.") (js "I eat a apple"))
        (loading answeringWorld) (NetworkError (js "Failed to fetch"))
    ∧ currentReview (ui w') = js "Failed to get review. Please try again."
    ∧ PracticeItem.geminiReview <$> sentencesData (ui w') !! 0%nat
      = Some (js "Failed to get review. Please try again.")
    ∧ currentReview (ui w') ≠ []
    ∧ errorMessage (ui w') = js "Failed to get review: Failed to fetch.".
Proof.
  eexists. split; [vm_compute; reflexivity|].
  split; [eexists _, _; vm_compute; reflexivity|].
  split_and!; try (vm_compute; reflexivity).
  by vm_compute.
Qed.

(** C4. The review client never lets a fault out: it always returns a
    string, and whenever its [try] block throws, that string is the fixed
    sentence "Failed to get review. Please try again.", returned with the
    error message set and the loading flag cleared. *)
Theorem review_fault_becomes_fallback (o a : jsstring) (w : World) (r : Fetched) :
  (∃ w' review, complete (getSentenceReview o a w) r = Finished w' review)
  ∧ (throws (reviewAttempt o a) (loading w) r →
     ∃ w', complete (getSentenceReview o a w) r
           = Finished w' (js "Failed to get review. Please try again.")
           ∧ errorMessage (ui w') ≠ []
           ∧ isLoading (ui w') = false).
Proof.
  split; [apply getSentenceReview_returns|].
  intros Hr%reviewAttempt_throws.
  destruct (getSentenceReview_failure o a w r Hr) as [message ->].
  eexists. split; [reflexivity|]. split; [|done].
  cbn. apply js_prefix_nonempty. by vm_compute.
Qed.

Lemma review_fault_becomes_fallback_witness :
  ∃ w', complete (getSentenceReview (js "Я їм яблуко.") (js "I eat a apple")
                    answeringWorld) (NetworkError (js "Failed to fetch"))
        = Finished w' (js "Failed to get review. Please try again.")
        ∧ errorMessage (ui w') ≠ []
        ∧ isLoading (ui w') = false.
Proof.
  destruct (review_fault_becomes_fallback (js "Я їм яблуко.")
              (js "I eat a apple") answeringWorld
              (NetworkError (js "Failed to fetch"))) as (_ & H).
  apply H. eexists _, _. vm_compute. reflexivity.
Defined.

(** ** Starting a practice *)

(** C3, as stated, fails: one tense selected, five sentences asked for,
    and the begin action builds a session in which one item has an empty
    sentence and both items carry tags that are neither among the
    selected tenses nor the default one. *)
Lemma begin_keeps_unchecked_items :
  ∃ w',
    selectedTenses oneTense = [js "Present Simple"]
    ∧ numSentences oneTense = Num 5
    ∧ complete (handleStartPractice oneTense initialWorld) strayReply
      = Finished w' tt
    ∧ currentPage (ui w') = practice
    ∧ currentSentenceIndex (ui w') = 0%nat
    ∧ sentencesData (ui w')
      = [{| PracticeItem.originalSentence := js "Hi.";
            PracticeItem.userAnswer := [];
            PracticeItem.geminiReview := [];
            PracticeItem.tenseUsed := js "Foo" |};
         {| PracticeItem.originalSentence := [];
            PracticeItem.userAnswer := [];
            PracticeItem.geminiReview := [];
            PracticeItem.tenseUsed := js "Bar" |}]
    ∧ (js "Foo" ∉ selectedTenses oneTense)
    ∧ (js "Bar" ∉ selectedTenses oneTense).
Proof.
  eexists. split_and!; try (vm_compute; reflexivity).
  - intros H. vm_compute in H. apply list_elem_of_singleton in H. discriminate H.
  - intros H. vm_compute in H. apply list_elem_of_singleton in H. discriminate H.
Qed.

(** C3, as the code has it.  With at least one tense selected and a
    count of at least one, the begin action on the start screen always
    completes, in one of two ways.  Either the screen is the practice
    screen at index 0 with no error, and the session holds between one
    and count items, each with an empty answer and an empty review, whose
    sentence and tense are the trimmed text and tag of a line of the
    reply that matches the pattern (the sentence may be empty and the tag
    is not compared with the selected tenses).  Or the screen is still
    the start screen, the error message is set and the session is
    empty. *)
Theorem begin_builds_session_or_reports (c : AppState) (w : World)
    (r : Fetched) (z : Z) :
  currentPage (ui w) = start →
  selectedTenses c ≠ [] →
  numSentences c = Num z → (1 ≤ z)%Z →
  ∃ w',
    complete (handleStartPractice c w) r = Finished w' tt
    ∧ isLoading (ui w') = false
    ∧ ((currentPage (ui w') = practice
        ∧ currentSentenceIndex (ui w') = 0%nat
        ∧ errorMessage (ui w') = []
        ∧ (1 ≤ length (sentencesData (ui w')))%nat
        ∧ (Z.of_nat (length (sentencesData (ui w'))) ≤ z)%Z
        ∧ ∀ item, item ∈ sentencesData (ui w') →
            PracticeItem.userAnswer item = []
            ∧ PracticeItem.geminiReview item = []
            ∧ ∃ text line m,
                firstText r = Some text
                ∧ line ∈ responseLines text
                ∧ lineMatch line = Some m
                ∧ PracticeItem.originalSentence item = trim (fst m)
                ∧ PracticeItem.tenseUsed item = trim (snd m))
       ∨ (currentPage (ui w') = start
          ∧ errorMessage (ui w') ≠ []
          ∧ sentencesData (ui w') = [])).
Proof.
  intros Hp Ht Hz Hz1.
  assert (leNum (numSentences c) (Num 0) = false) as Hn.
  { rewrite Hz. simpl. by apply Z.leb_gt; lia. }
  destruct (firstText r) as [text|] eqn:Hr.
  - rewrite (handleStartPractice_success c w r text Ht Hn Hr).
    eexists. split; [reflexivity|].
    rewrite Hz, slice0_positive by done.
    destruct (scanLines_extends (responseLines text) ∅ [])
      as (new & Hnew & _ & _ & _ & Hfrom).
    rewrite Hnew, app_nil_l.
    destruct (take (Z.to_nat z) new) as [|g gs] eqn:Htake.
    + split; [done|]. right. split_and!; [done| |done].
      apply noSentencesMessage_nonempty.
    + split; [done|]. left. rewrite <- Htake.
      split_and!; [done..| | |].
      * cbn. rewrite Htake. simpl. lia.
      * cbn. rewrite length_fmap, length_take. lia.
      * cbn. intros item (p & -> & Hin)%list_elem_of_fmap.
        split_and!; [done..|].
        assert (p ∈ new) as Hp' by (by eapply subseteq_take).
        destruct (Hfrom p Hp') as (line & m & Hl & Hm & ->).
        by exists text, line, m.
  - destruct (handleStartPractice_failure c w r Ht Hn Hr) as [message ->].
    eexists. split; [reflexivity|]. split; [done|]. right.
    split_and!; [done| |done].
    apply noSentencesMessage_nonempty.
Qed.

Lemma begin_builds_session_or_reports_witness :
  ∃ w',
    complete (handleStartPractice oneTense initialWorld) (replied twoSentences)
    = Finished w' tt
    ∧ isLoading (ui w') = false.
Proof.
  destruct (begin_builds_session_or_reports oneTense initialWorld
              (replied twoSentences) 5) as (w' & H1 & H2 & _).
  - reflexivity.
  - by vm_compute.
  - reflexivity.
  - lia.
  - exists w'. split; [exact H1 | exact H2].
Defined.

(** ** The generation parser *)

(** A line the pattern does not match leaves no trace in the loop. *)
Lemma parseLines_skips (l : loc) (before after : list jsstring)
    (line : jsstring) (acc : list Parsed) (w : World) :
  lineMatch line = None →
  parseLines l (before ++ line :: after) acc w
  = parseLines l (before ++ after) acc w.
Proof.
  intros Hm. revert acc w.
  induction before as [|x before IH]; intros acc w.
  - cbn [app parseLines]. by rewrite Hm.
  - rewrite <- !app_comm_cons. cbn [parseLines].
    destruct (lineMatch x) as [m|]; [|apply IH].
    unfold mbind, Async_bind, setHas, setAdd. cbn [bindStep].
    destruct (bool_decide _); cbn [negb bindStep]; apply IH.
Qed.

(** C5, as stated, fails: the count field is emptied, so the count is
    NaN and passes the guard of the begin action; the reply holds one
    line the pattern does not match and two lines of the asked shape; the
    array the generation client returns is empty all the same, and the
    begin action ends on the start screen with the message that no
    sentences could be generated. *)
Lemma wellformed_lines_yield_nothing :
  responseLines introducedSentences
  = [js "Ось речення:"; js "Я їм яблуко. [Present Simple]";
     js "Він біжить. [Present Simple]"]
  ∧ ¬ wellFormed (js "Ось речення:")
  ∧ wellFormed (js "Я їм яблуко. [Present Simple]")
  ∧ wellFormed (js "Він біжить. [Present Simple]")
  ∧ parseInt [] = NaN
  ∧ (∃ w',
       complete (generateSentences [js "Present Simple"] [] NaN 0%nat
                   initialWorld) (replied introducedSentences)
       = Finished w' (Some []))
  ∧ ∃ m,
      dispatchAll mounted emptiedCount = Some m
      ∧ numSentences (ui (world m)) = NaN
      ∧ currentPage (ui (world m)) = start
      ∧ sentencesData (ui (world m)) = []
      ∧ errorMessage (ui (world m)) = noSentencesMessage.
Proof.
  split_and!.
  - vm_compute. reflexivity.
  - intros [m Hm]%lineMatch_wellFormed. vm_compute in Hm. discriminate Hm.
  - exists (js "Я їм яблуко."), (js "Present Simple").
    split; vm_compute; reflexivity.
  - exists (js "Він біжить."), (js "Present Simple").
    split; vm_compute; reflexivity.
  - reflexivity.
  - eexists. vm_compute. reflexivity.
  - eexists. split; [vm_compute; reflexivity|].
    split_and!; vm_compute; reflexivity.
Qed.

(** C5, as the code has it.  The parser cuts the trimmed reply into
    lines at the line feeds and keeps the lines the pattern matches:
    those that end with a space, an opening bracket, a tag without line
    terminators and a closing bracket.  The match is told exactly: its
    text starts after the last line terminator of the line and runs to
    the last place where a space and an opening bracket stand, its tag
    is what lies between that bracket and the closing one that ends the
    line.  A line the pattern does not match is dropped and the loop goes
    on exactly as if the line were not there.  So when the Set starts
    empty and the count is a number of at least one, a reply with at
    least one well-formed line yields a non-empty array, whatever its
    other lines are, and the begin action opens a session on it.  When
    the count is NaN, which passes the guard of the begin action, the
    array is empty whatever the lines are, and the begin action stays on
    its screen with an empty session and the message that no sentences
    could be generated. *)
Theorem malformed_lines_are_dropped :
  (∀ line : jsstring, wellFormed line ↔ is_Some (lineMatch line))
  ∧ (∀ line text tag : jsstring,
      lineMatch line = Some (text, tag) ↔
      ∃ pre, line = pre ++ text ++ [32; 91] ++ tag ++ [93]
             ∧ forallb dot text = true ∧ forallb dot tag = true
             ∧ (pre = [] ∨ ∃ pre' c, pre = pre' ++ [c]
                                     ∧ isLineTerminator c = true)
             ∧ ∀ u v, tag ≠ u ++ [32; 91] ++ v)
  ∧ (∀ (l : loc) (before after : list jsstring) (line : jsstring)
     (acc : list Parsed) (w : World),
      ¬ wellFormed line →
      parseLines l (before ++ line :: after) acc w
      = parseLines l (before ++ after) acc w)
  ∧ (∀ (tenses : list jsstring) (themes : jsstring) (z : Z) (l : loc)
       (w : World) (r : Fetched) (text line : jsstring),
      store w !! l = Some ∅ → (1 ≤ z)%Z →
      firstText r = Some text →
      line ∈ responseLines text → wellFormed line →
      ∃ w' generated,
        complete (generateSentences tenses themes (Num z) l w) r
        = Finished w' (Some generated)
        ∧ generated ≠ [])
  ∧ (∀ (c : AppState) (w : World) (z : Z) (r : Fetched) (text line : jsstring),
      selectedTenses c ≠ [] → numSentences c = Num z → (1 ≤ z)%Z →
      firstText r = Some text →
      line ∈ responseLines text → wellFormed line →
      ∃ w',
        complete (handleStartPractice c w) r = Finished w' tt
        ∧ currentPage (ui w') = practice
        ∧ sentencesData (ui w') ≠ [])
  ∧ (∀ (tenses : list jsstring) (themes : jsstring) (l : loc) (w : World)
       (U : gset jsstring) (r : Fetched) (text : jsstring),
      store w !! l = Some U → firstText r = Some text →
      ∃ w',
        complete (generateSentences tenses themes NaN l w) r
        = Finished w' (Some []))
  ∧ (∀ (c : AppState) (w : World) (r : Fetched) (text : jsstring),
      selectedTenses c ≠ [] → numSentences c = NaN →
      firstText r = Some text →
      leNum (numSentences c) (Num 0) = false
      ∧ ∃ w',
          complete (handleStartPractice c w) r = Finished w' tt
          ∧ currentPage (ui w') = currentPage (ui w)
          ∧ sentencesData (ui w') = []
          ∧ errorMessage (ui w') = noSentencesMessage).
Proof.
  assert (∀ (z : Z) (text line : jsstring),
            (1 ≤ z)%Z → line ∈ responseLines text → wellFormed line →
            slice0 (snd (scanLines (responseLines text) ∅ [])) (Num z) ≠ [])
    as Hnonempty.
  { intros z text line Hz Hin [m Hm]%lineMatch_wellFormed.
    pose proof (scanLines_grows (responseLines text) ∅ [] line m Hin Hm) as Hg.
    rewrite slice0_positive by done.
    intros Hnil%(f_equal length). rewrite length_take in Hnil.
    simpl in Hg, Hnil. specialize (Hg (not_elem_of_empty _)). lia. }
  split_and!.
  - apply lineMatch_wellFormed.
  - apply lineMatch_exactly.
  - intros l before after line acc w Hw. apply parseLines_skips.
    destruct (lineMatch line) eqn:Hm; [|done].
    exfalso. apply Hw, lineMatch_wellFormed. by eexists.
  - intros tenses themes z l w r text line HU Hz Hr Hin Hwf.
    rewrite (generateSentences_success tenses themes _ l w ∅ r text HU Hr).
    eexists _, _. split; [reflexivity|]. by eapply Hnonempty.
  - intros c w z r text line Ht Hn Hz Hr Hin Hwf.
    assert (leNum (numSentences c) (Num 0) = false) as Hle.
    { rewrite Hn. simpl. by apply Z.leb_gt; lia. }
    rewrite (handleStartPractice_success c w r text Ht Hle Hr).
    eexists. split; [reflexivity|].
    pose proof (Hnonempty z text line Hz Hin Hwf) as Hne.
    rewrite Hn.
    destruct (slice0 _ (Num z)) as [|g gs]; [done|].
    split; [done|]. cbn. done.
  - intros tenses themes l w U r text HU Hr.
    rewrite (generateSentences_success tenses themes _ l w U r text HU Hr).
    eexists. reflexivity.
  - intros c w r text Ht Hn Hr.
    assert (leNum (numSentences c) (Num 0) = false) as Hle by (by rewrite Hn).
    split; [exact Hle|].
    rewrite (handleStartPractice_success c w r text Ht Hle Hr).
    eexists. split; [reflexivity|].
    rewrite Hn. change (slice0 _ NaN) with (@nil Parsed).
    destruct w as [s st]. split_and!; reflexivity.
Qed.

Lemma malformed_lines_are_dropped_witness :
  ∃ w' generated,
    complete (generateSentences [js "Present Simple"] [] (Num 5) 0%nat
                initialWorld)
      (replied (js "1." ++ [10] ++ js "Hi. [Present Simple]"))
    = Finished w' (Some generated)
    ∧ generated ≠ [].
Proof.
  destruct malformed_lines_are_dropped as (_ & _ & _ & H & _).
  apply (H [js "Present Simple"] [] 5%Z 0%nat initialWorld
           (replied (js "1." ++ [10] ++ js "Hi. [Present Simple]"))
           (js "1." ++ [10] ++ js "Hi. [Present Simple]")
           (js "Hi. [Present Simple]")).
  - reflexivity.
  - lia.
  - reflexivity.
  - vm_compute. right. left.
  - exists (js "Hi."), (js "Present Simple"). split; vm_compute; reflexivity.
Defined.

(** C6. The loop treats a matching line in one of two ways: a sentence
    already in the Set is dropped, and a new one is added to the Set and
    appended to the array.  Hence the sentences a generation call returns
    are pairwise distinct and none of them was in the Set before, and the
    session the begin action builds holds no sentence twice. *)
Theorem duplicate_sentences_are_dropped :
  (∀ (l : loc) (line : jsstring) (m : jsstring * jsstring)
     (acc : list Parsed) (w : World) (U : gset jsstring),
      store w !! l = Some U → lineMatch line = Some m →
      parseLines l [line] acc w
      = if bool_decide (trim (fst m) ∈ U) then Finished w acc
        else Finished
               (withStore w (<[l := {[trim (fst m)]} ∪ U]> (store w)))
               (acc ++ [{| sentence := trim (fst m);
                           tense := trim (snd m) |}]))
  ∧ (∀ (tenses : list jsstring) (themes : jsstring) (n : number) (l : loc)
       (w : World) (U : gset jsstring) (r : Fetched) (text : jsstring),
      store w !! l = Some U → firstText r = Some text →
      ∃ w' generated,
        complete (generateSentences tenses themes n l w) r
        = Finished w' (Some generated)
        ∧ NoDup (sentence <$> generated)
        ∧ ∀ p, p ∈ generated → sentence p ∉ U)
  ∧ (∀ (c : AppState) (w : World) (r : Fetched),
      selectedTenses c ≠ [] → leNum (numSentences c) (Num 0) = false →
      ∃ w',
        complete (handleStartPractice c w) r = Finished w' tt
        ∧ NoDup (PracticeItem.originalSentence <$> sentencesData (ui w'))).
Proof.
  assert (∀ (lines : list jsstring) (U : gset jsstring) (n : number),
            NoDup (sentence <$> slice0 (snd (scanLines lines U [])) n)
            ∧ ∀ p, p ∈ slice0 (snd (scanLines lines U [])) n → sentence p ∉ U)
    as Hdistinct.
  { intros lines U n.
    destruct (scanLines_extends lines U []) as (new & -> & _ & Hnd & Hnew & _).
    rewrite app_nil_l. destruct (slice0_take new n) as [k ->]. split.
    - rewrite fmap_take. by eapply sublist_NoDup; [|apply sublist_take].
    - intros p Hp. apply Hnew. by eapply subseteq_take. }
  split_and!.
  - intros l line m acc w U HU Hm.
    rewrite (parseLines_scan l [line] acc w U HU). cbn [scanLines]. rewrite Hm.
    case_bool_decide; cbn [fst snd]; [|done].
    by rewrite withStore_id.
  - intros tenses themes n l w U r text HU Hr.
    rewrite (generateSentences_success tenses themes n l w U r text HU Hr).
    eexists _, _. split; [reflexivity|]. apply Hdistinct.
  - intros c w r Ht Hn.
    destruct (firstText r) as [text|] eqn:Hr.
    + rewrite (handleStartPractice_success c w r text Ht Hn Hr).
      eexists. split; [reflexivity|].
      destruct (Hdistinct (responseLines text) ∅ (numSentences c)) as [Hnd _].
      destruct (slice0 _ (numSentences c)) as [|g gs]; cbn; [constructor|].
      change (NoDup (PracticeItem.originalSentence <$> (toPracticeItem <$> g :: gs))).
      rewrite <- list_fmap_compose. exact Hnd.
    + destruct (handleStartPractice_failure c w r Ht Hn Hr) as [message ->].
      eexists. split; [reflexivity|]. cbn. constructor.
Qed.

Lemma duplicate_sentences_are_dropped_witness :
  ∃ w' generated,
    complete (generateSentences [js "Present Simple"] [] (Num 5) 0%nat
                initialWorld)
      (replied (js "Hi. [Past Simple]" ++ [10] ++ js "Hi. [Present Simple]"))
    = Finished w' (Some generated)
    ∧ NoDup (sentence <$> generated)
    ∧ ∀ p, p ∈ generated → sentence p ∉ (∅ : gset jsstring).
Proof.
  destruct duplicate_sentences_are_dropped as (_ & H & _).
  apply (H [js "Present Simple"] [] (Num 5) 0%nat initialWorld ∅
           (replied (js "Hi. [Past Simple]" ++ [10] ++ js "Hi. [Present Simple]"))
           (js "Hi. [Past Simple]" ++ [10] ++ js "Hi. [Present Simple]")).
  - reflexivity.
  - reflexivity.
Defined.

(** ** The local guards *)

(** C7. A begin action with no tense selected or with a count of zero
    or less, and a review action with an empty (or blank) answer, end at
    once: the handler finishes without reaching the network, and all it
    does is set a non-empty error message. *)
Theorem invalid_setup_is_rejected_locally (c : AppState) (w : World) :
  (selectedTenses c = [] →
   handleStartPractice c w
   = Finished (onUi (setErrorMessage noTenseMessage) w) tt)
  ∧ (∀ z, numSentences c = Num z → (z ≤ 0)%Z →
     ∃ message,
       message ≠ []
       ∧ handleStartPractice c w
         = Finished (onUi (setErrorMessage message) w) tt)
  ∧ (trim (userAnswer c) = [] →
     handleGetReview c w
     = Finished (onUi (setErrorMessage noAnswerMessage) w) tt)
  ∧ noTenseMessage ≠ [] ∧ countMessage ≠ [] ∧ noAnswerMessage ≠ [].
Proof.
  split_and!.
  - intros Ht. unfold handleStartPractice. by rewrite Ht.
  - intros z Hz Hle. unfold handleStartPractice. rewrite Hz.
    destruct (selectedTenses c) as [|t ts]; cbn [length Nat.eqb].
    + exists noTenseMessage. split; [by vm_compute | done].
    + exists countMessage. split; [by vm_compute|].
      cbn [leNum]. by destruct (Z.leb_spec z 0); [|lia].
  - intros Ha. unfold handleGetReview. by rewrite Ha.
  - by vm_compute.
  - by vm_compute.
  - by vm_compute.
Qed.

Lemma invalid_setup_is_rejected_locally_witness :
  handleStartPractice initialState initialWorld
  = Finished (onUi (setErrorMessage noTenseMessage) initialWorld) tt
  ∧ (∃ message,
       message ≠ []
       ∧ handleStartPractice (setNumSentences (Num 0) oneTense) initialWorld
         = Finished (onUi (setErrorMessage message) initialWorld) tt)
  ∧ handleGetReview (setUserAnswer (js "  ") answering) answeringWorld
    = Finished (onUi (setErrorMessage noAnswerMessage) answeringWorld) tt.
Proof.
  destruct (invalid_setup_is_rejected_locally initialState initialWorld)
    as (H1 & _).
  destruct (invalid_setup_is_rejected_locally
              (setNumSentences (Num 0) oneTense) initialWorld)
    as (_ & H2 & _).
  destruct (invalid_setup_is_rejected_locally
              (setUserAnswer (js "  ") answering) answeringWorld)
    as (_ & _ & H3 & _).
  split; [exact (H1 eq_refl)|].
  split; [apply (H2 0%Z eq_refl); lia|].
  apply H3. vm_compute. reflexivity.
Defined.

(** ** The sentence count *)

(** C9. The count field stores whatever [parseInt] makes of its text,
    NaN and numbers above 20 included.  With NaN stored and a tense
    selected, the comparison of the count with zero is false, so the
    begin action does not stop at its guard: it suspends on a generation
    request whose prompt asks for "NaN" sentences.  A count above 20 is
    sent on as it is. *)
Theorem nan_count_passes_the_guard :
  (∀ (m : Machine) (v : jsstring),
      currentPage (ui (world m)) = start →
      dispatch m (NumSentencesChanged v)
      = Some {| world := onUi (setNumSentences (parseInt v)) (world m);
                pending := pending m |})
  ∧ parseInt [] = NaN
  ∧ parseInt (js "abc") = NaN
  ∧ parseInt (js "25") = Num 25
  ∧ (∀ (c : AppState) (w : World),
      numSentences c = NaN → selectedTenses c ≠ [] →
      leNum (numSentences c) (Num 0) = false
      ∧ ∃ resume rest,
          handleStartPractice c w
          = Suspended (loading (began w))
              (generationPrompt (selectedTenses c) (selectedThemes c) NaN)
              resume
          ∧ generationPrompt (selectedTenses c) (selectedThemes c) NaN
            = js "Створи NaN" ++ rest)
  ∧ (∀ (c : AppState) (w : World) (z : Z),
      numSentences c = Num z → (20 < z)%Z → selectedTenses c ≠ [] →
      ∃ resume,
        handleStartPractice c w
        = Suspended (loading (began w))
            (generationPrompt (selectedTenses c) (selectedThemes c) (Num z))
            resume).
Proof.
  split_and!.
  - intros m v Hp. cbn [dispatch]. unfold onStart. rewrite Hp. reflexivity.
  - vm_compute. reflexivity.
  - vm_compute. reflexivity.
  - vm_compute. reflexivity.
  - intros c w Hn Ht. split; [by rewrite Hn|].
    destruct (handleStartPractice_suspends c w Ht) as [resume Hs];
      [by rewrite Hn|].
    rewrite Hn in Hs. exists resume.
    assert (js "Створи NaN" = js "Створи " ++ numberToString NaN) as Hjs
      by (vm_compute; reflexivity).
    unfold generationPrompt in *. rewrite Hjs.
    destruct (truthy (selectedThemes c));
      eexists; (split; [exact Hs|]); rewrite <- !app_assoc; reflexivity.
  - intros c w z Hz Hlt Ht.
    destruct (handleStartPractice_suspends c w Ht) as [resume Hs].
    + rewrite Hz. cbn [leNum]. apply Z.leb_gt. lia.
    + rewrite Hz in Hs. by exists resume.
Qed.

Lemma nan_count_passes_the_guard_witness :
  ∃ m resume,
    dispatchAll mounted
      [AuthSettled SignedIn; TenseToggled (js "Present Simple");
       NumSentencesChanged []] = Some m
    ∧ numSentences (ui (world m)) = NaN
    ∧ handleStartPractice (ui (world m)) (world m)
      = Suspended (loading (began (world m)))
          (generationPrompt [js "Present Simple"] [] NaN) resume.
Proof.
  destruct nan_count_passes_the_guard as (_ & _ & _ & _ & H & _).
  eexists. 
  destruct (H (setNumSentences NaN oneTense)
              {| ui := setNumSentences NaN oneTense; store := [∅] |})
    as (_ & resume & rest & Hs & _).
  - reflexivity.
  - by vm_compute.
  - exists resume. split_and!; [vm_compute; reflexivity | reflexivity | exact Hs].
Defined.

(** ** The Set of seen sentences *)

Lemma contents_after_insert (f : AppState -> AppState) (w0 : World)
    (st : list (gset jsstring)) (l : loc) (S : gset jsstring) :
  (l < length st)%nat →
  contents (onUi f (withStore w0 (<[l := S]> st))) l = S.
Proof.
  intros Hl. unfold contents, onUi, withStore. cbn [store].
  by rewrite list_lookup_insert_eq.
Qed.

(** C10. A successful generation call adds to the Set the sentence of
    every parsed item before it cuts the array down to the count: after
    the call the Set is what it was plus the sentences of the whole
    parsed array, of which the returned array is only the slice; every
    sentence a line of the reply yields is in it, and nothing that was in
    it is gone. *)
Theorem seen_set_keeps_every_parsed_sentence (tenses : list jsstring)
    (themes : jsstring) (n : number) (l : loc) (w : World)
    (U : gset jsstring) (r : Fetched) (text : jsstring) :
  store w !! l = Some U → firstText r = Some text →
  ∃ w' parsed,
    complete (generateSentences tenses themes n l w) r
    = Finished w' (Some (slice0 parsed n))
    ∧ contents w' l = U ∪ list_to_set (sentence <$> parsed)
    ∧ U ⊆ contents w' l
    ∧ (∀ p, p ∈ parsed → sentence p ∈ contents w' l)
    ∧ (∀ line m, line ∈ responseLines text → lineMatch line = Some m →
         trim (fst m) ∈ contents w' l).
Proof.
  intros HU Hr.
  rewrite (generateSentences_success tenses themes n l w U r text HU Hr).
  eexists _, _. split; [reflexivity|].
  assert (l < length (store w))%nat as Hl by (by eapply lookup_lt_Some).
  rewrite contents_after_insert by done.
  destruct (scanLines_extends (responseLines text) U [])
    as (new & Hnew & Hset & _).
  rewrite app_nil_l in Hnew. rewrite Hnew.
  split_and!.
  - exact Hset.
  - apply scanLines_mono.
  - intros p Hp. rewrite Hset. apply elem_of_union. right.
    apply elem_of_list_to_set. by apply list_elem_of_fmap_2.
  - intros line m Hin Hm. by eapply scanLines_records.
Qed.

Lemma seen_set_keeps_every_parsed_sentence_witness :
  ∃ w' parsed,
    complete (generateSentences [js "Present Simple"] [] (Num 1) 0%nat
                initialWorld) (replied twoSentences)
    = Finished w' (Some (slice0 parsed (Num 1)))
    ∧ contents w' 0%nat = ∅ ∪ list_to_set (sentence <$> parsed)
    ∧ (∀ line m, line ∈ responseLines twoSentences → lineMatch line = Some m →
         trim (fst m) ∈ contents w' 0%nat).
Proof.
  destruct (seen_set_keeps_every_parsed_sentence [js "Present Simple"] []
              (Num 1) 0%nat initialWorld ∅ (replied twoSentences) twoSentences)
    as (w' & parsed & H1 & H2 & _ & _ & H5).
  - reflexivity.
  - reflexivity.
  - exists w', parsed. split_and!; [exact H1 | exact H2 | exact H5].
Defined.

(** The sentence beyond the count is in the Set though not in the
    returned array. *)
Example second_sentence_is_remembered :
  ∃ w' generated,
    complete (generateSentences [js "Present Simple"] [] (Num 1) 0%nat
                initialWorld) (replied twoSentences)
    = Finished w' (Some generated)
    ∧ sentence <$> generated = [js "Я їм яблуко."]
    ∧ js "Він біжить." ∈ contents w' 0%nat.
Proof.
  eexists _, _. split; [vm_compute; reflexivity|].
  split; [vm_compute; reflexivity|].
  by vm_compute.
Qed.

(** ** The scenario of the specification

    One tense, a count of two and a reply of two well-formed lines give a
    session of those two sentences at index 0. *)
Example two_sentences_session :
  ∃ w',
    complete (handleStartPractice (setNumSentences (Num 2) oneTense)
                initialWorld) (replied twoSentences)
    = Finished w' tt
    ∧ currentPage (ui w') = practice
    ∧ currentSentenceIndex (ui w') = 0%nat
    ∧ sentencesData (ui w')
      = [{| PracticeItem.originalSentence := js "Я їм яблуко.";
            PracticeItem.userAnswer := [];
            PracticeItem.geminiReview := [];
            PracticeItem.tenseUsed := js "Present Simple" |};
         {| PracticeItem.originalSentence := js "Він біжить.";
            PracticeItem.userAnswer := [];
            PracticeItem.geminiReview := [];
            PracticeItem.tenseUsed := js "Present Simple" |}].
Proof.
  eexists. split; [vm_compute; reflexivity|].
  split_and!; vm_compute; reflexivity.
Qed.

Opaque js.

(** Normal form of a world built by setters: every field spelled out. *)
Ltac fields :=
  cbv [onUi withStore noSession sessionOf loading began resetState contents
       world pending ui store
       setCurrentPage setSelectedTenses setSelectedThemes setNumSentences setCurrentSentenceIndex
       setSentencesData setUserAnswer setCurrentReview setIsLoading setErrorMessage
       setIsAuthReady setGeneratedSentencesSet setShowTenseInPractice
       currentPage selectedTenses selectedThemes numSentences currentSentenceIndex sentencesData userAnswer
       currentReview isLoading errorMessage isAuthReady generatedSentencesSet showTenseInPractice] in *.

(** A world taken apart into its fields. *)
Ltac open_world w :=
  destruct w as [[? ? ? ? ? ? ? ? ? ? ? ? ?] ?]; fields.

Lemma parseLines_finishes (l : loc) (lines : list jsstring)
    (acc : list Parsed) (w : World) :
  ∃ st out, parseLines l lines acc w = Finished (withStore w st) out
            ∧ length st = length (store w).
Proof.
  revert acc w. induction lines as [|line rest IH]; intros acc w.
  - exists (store w), acc. split; [by destruct w|done].
  - cbn [parseLines]. destruct (lineMatch line) as [m|]; [|apply IH].
    unfold mbind, Async_bind, setHas, setAdd. cbn [bindStep].
    destruct (bool_decide _); cbn [negb bindStep]; [apply IH|].
    destruct (IH (acc ++ [{| sentence := trim (fst m); tense := trim (snd m) |}])
                {| ui := ui w;
                   store := alter (union {[trim (fst m)]}) l (store w) |})
      as (st & out & -> & Hlen).
    exists st, out. split; [done|].
    cbn [store] in Hlen. by rewrite Hlen, length_alter.
Qed.

Lemma handleStartPractice_resume (c : AppState) (w : World) :
  selectedTenses c ≠ [] → leNum (numSentences c) (Num 0) = false →
  ∃ k,
    handleStartPractice c w
    = Suspended (loading (began w))
        (generationPrompt (selectedTenses c) (selectedThemes c) (numSentences c))
        k
    ∧ (∀ r w1 text U,
         firstText r = Some text →
         store w1 !! length (store w) = Some U →
         let scan := scanLines (responseLines text) U [] in
         let generated := slice0 (snd scan) (numSentences c) in
         k r w1
         = Finished
             (onUi (match generated with
                    | [] => noSession
                    | _ => sessionOf generated
                    end)
                (withStore w1 (<[length (store w) := fst scan]> (store w1))))
             tt)
    ∧ (∀ r w1, firstText r = None → k r w1 = Finished (onUi noSession w1) tt).
Proof.
  intros Ht Hn. unfold handleStartPractice. rewrite Hn.
  destruct (selectedTenses c) as [|t ts] eqn:Hts; [done|].
  eexists. split; [reflexivity|]. split.
  - intros r w1 text U Hr HU. exchange_cases r Hr. injection Hr as ->.
    unfold generateAttempt, generateFrom, json.
    unfold mbind, Async_bind, mret, Async_ret, update. simpl.
    rewrite (parseLines_scan _ _ [] w1 U) by done.
    simpl. change (splitLines (trim text)) with (responseLines text).
    generalize (slice0 (snd (scanLines (responseLines text) U [])) (numSentences c)).
    intros [|g gs]; fields; reflexivity.
  - intros r w1 Hr.
    exchange_cases r Hr; simpl; fields; reflexivity.
Qed.

Lemma handleGetReview_resume (c : AppState) (w : World) (item : PracticeItem.t) :
  truthy (trim (userAnswer c)) = true →
  sentencesData c !! currentSentenceIndex c = Some item →
  ∃ k,
    handleGetReview c w
    = Suspended (loading w)
        (reviewPrompt (PracticeItem.originalSentence item) (userAnswer c)) k
    ∧ ∀ r w1,
        ∃ review w1',
          k r w1
          = Finished
              (onUi (fun s =>
                       setIsLoading false
                         (setCurrentReview review
                            (setSentencesData
                               (<[currentSentenceIndex c :=
                                   {| PracticeItem.originalSentence :=
                                        PracticeItem.originalSentence item;
                                      PracticeItem.userAnswer := userAnswer c;
                                      PracticeItem.geminiReview := review;
                                      PracticeItem.tenseUsed :=
                                        PracticeItem.tenseUsed item |}]>
                                  (sentencesData c)) s)))
                 w1')
              tt
          ∧ match firstText r with
            | Some text => review = trim text ∧ w1' = w1
            | None =>
                review = reviewFallback
                ∧ ∃ message,
                    w1' = onUi (setErrorMessage
                                  (js "Failed to get review: " ++ message
                                   ++ js ".")) w1
            end.
Proof.
  intros Ha Hi. unfold handleGetReview. rewrite Ha, Hi.
  eexists. split; [reflexivity|].
  intros r w1. destruct (firstText r) as [text|] eqn:Hr.
  - exchange_cases r Hr. injection Hr as ->.
    exists (trim text), w1. split; [simpl; fields; reflexivity|]. done.
  - exchange_cases r Hr; eexists reviewFallback, (onUi (setErrorMessage _) w1);
      (split; [simpl; fields; reflexivity|]);
      (split; [reflexivity|]); eexists; reflexivity.
Qed.


(** ** The invariant of the running component *)

Lemma Frame_refl (w : World) : Frame w w.
Proof. by repeat split. Qed.

Lemma Frame_trans (w1 w2 w3 : World) : Frame w1 w2 → Frame w2 w3 → Frame w1 w3.
Proof.
  intros (?&?&?&?&?&?&?) (?&?&?&?&?&?&?).
  repeat split; congruence.
Qed.

Lemma Coherent_frame (w w' : World) : Coherent w → Frame w w' → Coherent w'.
Proof.
  intros [H1 H2 H3 H4 H5 H6 H7] (Hp & Hd & Hi & Ha & Hr & Hs & Hst).
  split; unfold contents in *;
    rewrite <- ?Hp, <- ?Hd, <- ?Hi, <- ?Ha, <- ?Hr, <- ?Hs, <- ?Hst; done.
Qed.

Lemma Resumes_frame (k : Fetched -> World -> Step unit) (w w' : World) :
  Resumes k w → Frame w w' → Resumes k w'.
Proof. intros Hk Hf w'' Hf'. apply Hk. by eapply Frame_trans. Qed.

(** A setter call that keeps the session, the store and the loading
    flag keeps the invariant, provided the selection stays well formed. *)
Lemma Inv_update (m : Machine) (f : AppState -> AppState) :
  Inv m →
  Frame (world m) (onUi f (world m)) →
  isLoading (f (ui (world m))) = isLoading (ui (world m)) →
  TensesOk (f (ui (world m))) →
  Inv {| world := onUi f (world m); pending := pending m |}.
Proof.
  intros (Hc & Ht & Hp) Hf Hl Ht'. split_and!.
  - by eapply Coherent_frame.
  - done.
  - cbn [pending world]. destruct (pending m) as [k|].
    + destruct Hp as [Hp Hk]. split; [by rewrite <- Hp|by eapply Resumes_frame].
    + by rewrite <- Hp.
Qed.

Lemma call_update (m : Machine) (f : AppState -> AppState) :
  call (fun _ => update f) m
  = Some {| world := onUi f (world m); pending := pending m |}.
Proof. reflexivity. Qed.

Lemma toggle_TensesOk (s : AppState) (tense : jsstring) :
  TensesOk s → tense ∈ availableTenses →
  NoDup (if bool_decide (tense ∈ selectedTenses s)
         then filter (fun t => t ≠ tense) (selectedTenses s)
         else selectedTenses s ++ [tense])
  ∧ (if bool_decide (tense ∈ selectedTenses s)
     then filter (fun t => t ≠ tense) (selectedTenses s)
     else selectedTenses s ++ [tense]) ⊆ availableTenses.
Proof.
  intros [Hnd Hsub] Hin. case_bool_decide as Hd.
  - split; [by apply NoDup_filter|].
    intros t [_ Ht]%list_elem_of_filter. by apply Hsub.
  - split.
    + apply NoDup_app. split_and!; [done| |apply NoDup_singleton].
      intros t Ht ->%list_elem_of_singleton. done.
    + intros t [Ht| ->%list_elem_of_singleton]%elem_of_app; [by apply Hsub|done].
Qed.

(** What a slice of the scan holds: distinct sentences, all of them in
    the Set the scan leaves. *)
Lemma slice0_scan_items (lines : list jsstring) (U : gset jsstring)
    (n : number) :
  NoDup (sentence <$> slice0 (snd (scanLines lines U [])) n)
  ∧ ∀ p, p ∈ slice0 (snd (scanLines lines U [])) n →
         sentence p ∈ fst (scanLines lines U []).
Proof.
  destruct (scanLines_extends lines U []) as (new & -> & -> & Hnd & _).
  rewrite app_nil_l. destruct (slice0_take new n) as [k ->]. split.
  - rewrite fmap_take. by eapply sublist_NoDup; [|apply sublist_take].
  - intros p Hp%subseteq_take. apply elem_of_union. right.
    apply elem_of_list_to_set. by apply list_elem_of_fmap_2.
Qed.

Lemma Coherent_session (w1 : World) (lines : list jsstring)
    (U : gset jsstring) (n : number) (g : Parsed) (gs : list Parsed) :
  (generatedSentencesSet (ui w1) < length (store w1))%nat →
  slice0 (snd (scanLines lines U [])) n = g :: gs →
  Coherent
    (onUi (sessionOf (g :: gs))
       (withStore w1
          (<[generatedSentencesSet (ui w1) := fst (scanLines lines U [])]>
             (store w1)))).
Proof.
  intros Hl Hg.
  destruct (slice0_scan_items lines U n) as [Hnd Hin]. rewrite Hg in Hnd, Hin.
  assert (∀ item, item ∈ toPracticeItem <$> g :: gs →
                  PracticeItem.geminiReview item = []) as Hnone.
  { by intros item (p & -> & _)%list_elem_of_fmap. }
  open_world w1. split; fields.
  - by rewrite length_insert.
  - done.
  - done.
  - intros item Hi. eapply Hnone, list_elem_of_lookup_2, Hi.
  - intros j item _ Hi. eapply Hnone, list_elem_of_lookup_2, Hi.
  - change (NoDup (PracticeItem.originalSentence <$> (toPracticeItem <$> g :: gs))).
    by rewrite <- list_fmap_compose.
  - intros item Hi.
    change (item ∈ toPracticeItem <$> g :: gs) in Hi.
    apply list_elem_of_fmap in Hi as (p & -> & Hp).
    rewrite list_lookup_insert_eq by done. by apply Hin.
Qed.

Lemma Coherent_noSession (w1 : World) (st : list (gset jsstring)) :
  Coherent w1 → currentPage (ui w1) = start → length st = length (store w1) →
  Coherent (onUi noSession (withStore w1 st)).
Proof.
  intros [H1 H2 H3 H4 H5 H6 H7] Hp Hlen.
  destruct (H2 Hp) as (Hd & Hi & Ha & Hr).
  open_world w1. subst. split; fields.
  - by rewrite Hlen.
  - done.
  - done.
  - done.
  - done.
  - constructor.
  - by intros item ?%elem_of_nil.
Qed.

Lemma Coherent_began (w : World) :
  Coherent w → currentPage (ui w) = start → Coherent (loading (began w)).
Proof.
  intros [H1 H2 H3 H4 H5 H6 H7] Hp.
  destruct (H2 Hp) as (Hd & Hi & Ha & Hr).
  open_world w. subst. split; fields.
  - rewrite length_app. simpl. lia.
  - done.
  - done.
  - done.
  - done.
  - constructor.
  - by intros item ?%elem_of_nil.
Qed.

(** The start button. *)
Lemma Inv_start (m m' : Machine) :
  Inv m → startEnabled (ui (world m)) = true →
  call handleStartPractice m = Some m' → Inv m'.
Proof.
  intros HI He Hc.
  assert (currentPage (ui (world m)) = start ∧ isLoading (ui (world m)) = false)
    as [Hp Hl].
  { unfold startEnabled, onStart in He.
    destruct (currentPage _), (isLoading _); done. }
  destruct (decide (selectedTenses (ui (world m)) = [])) as [Ht|Ht].
  { unfold call, handleStartPractice in Hc. rewrite Ht in Hc.
    injection Hc as <-. apply Inv_update; [done|by repeat split|done|].
    by destruct HI as (_ & ? & _). }
  destruct (leNum (numSentences (ui (world m))) (Num 0)) eqn:Hn.
  { unfold call, handleStartPractice in Hc. rewrite Hn in Hc.
    destruct (selectedTenses (ui (world m))); [done|].
    injection Hc as <-. apply Inv_update; [done|by repeat split|done|].
    by destruct HI as (_ & ? & _). }
  destruct (handleStartPractice_resume (ui (world m)) (world m) Ht Hn)
    as (k & Hk & Hok & Hfail).
  unfold call in Hc. rewrite Hk in Hc.
  destruct HI as (Hco & Hte & Hpe).
  destruct (pending m) as [k0|] eqn:Hpend; [destruct Hpe; congruence|].
  cbn [settle] in Hc. rewrite Hpend in Hc. injection Hc as <-.
  pose proof (Coherent_began _ Hco Hp) as Hcb.
  split_and!; [done|done|]. cbn [pending world]. split; [done|].
  intros w' Hf r.
  pose proof (Coherent_frame _ _ Hcb Hf) as Hcw.
  destruct Hf as (Hfp & Hfd & Hfi & Hfa & Hfr & Hfs & Hfst).
  assert (currentPage (ui w') = start) as Hpw by (by rewrite <- Hfp).
  assert (generatedSentencesSet (ui w') = length (store (world m))) as Hset
    by (by rewrite <- Hfs).
  assert (store w' !! length (store (world m)) = Some ∅) as Hlook.
  { rewrite <- Hfst. apply began_lookup. }
  destruct (firstText r) as [text|] eqn:Hr.
  - rewrite (Hok r w' text ∅ Hr Hlook). cbv zeta.
    destruct (slice0 _ _) as [|g gs] eqn:Hg.
    + eexists. split; [reflexivity|]. split_and!; [|done..].
      apply Coherent_noSession; [done..|by rewrite length_insert].
    + eexists. split; [reflexivity|]. split_and!; [|done..].
      rewrite <- Hset. eapply Coherent_session; [apply Hcw|exact Hg].
  - rewrite (Hfail r w' Hr).
    eexists. split; [reflexivity|]. split_and!; [|done..].
    replace w' with (withStore w' (store w')) at 1 by (by destruct w').
    by apply Coherent_noSession.
Qed.

(** A review stored into the current item. *)
Lemma Coherent_reviewed (c : AppState) (w1 : World) (item : PracticeItem.t)
    (review : jsstring) :
  Coherent w1 →
  currentPage (ui w1) = practice →
  sentencesData (ui w1) = sentencesData c →
  currentSentenceIndex (ui w1) = currentSentenceIndex c →
  sentencesData c !! currentSentenceIndex c = Some item →
  Coherent
    (onUi (fun s =>
             setIsLoading false
               (setCurrentReview review
                  (setSentencesData
                     (<[currentSentenceIndex c :=
                         {| PracticeItem.originalSentence :=
                              PracticeItem.originalSentence item;
                            PracticeItem.userAnswer := userAnswer c;
                            PracticeItem.geminiReview := review;
                            PracticeItem.tenseUsed :=
                              PracticeItem.tenseUsed item |}]>
                        (sentencesData c)) s)))
       w1).
Proof.
  intros [H1 H2 H3 H4 H5 H6 H7] Hp Hd Hi Hitem.
  assert (currentSentenceIndex c < length (sentencesData c))%nat as Hlt
    by (by eapply lookup_lt_Some).
  open_world w1. subst. split; fields.
  - done.
  - done.
  - intros _ Hnil%(f_equal length). rewrite length_insert in Hnil.
    simpl in Hnil. lia.
  - intros it. rewrite list_lookup_insert_eq by done. by intros [= <-].
  - intros j it Hj. rewrite list_lookup_insert_ne by lia. by apply H5.
  - rewrite list_fmap_insert. cbn [PracticeItem.originalSentence].
    rewrite list_insert_id; [done|]. by rewrite list_lookup_fmap, Hitem.
  - intros it (j & Hj)%list_elem_of_lookup_1.
    destruct (decide (currentSentenceIndex c = j)) as [<-|Hne].
    + rewrite list_lookup_insert_eq in Hj by done. injection Hj as <-.
      cbn [PracticeItem.originalSentence].
      apply H7. by eapply list_elem_of_lookup_2.
    + rewrite list_lookup_insert_ne in Hj by done.
      apply H7. by eapply list_elem_of_lookup_2.
Qed.

(** The review button. *)
Lemma Inv_review (m m' : Machine) :
  Inv m → reviewEnabled (ui (world m)) = true →
  call handleGetReview m = Some m' → Inv m'.
Proof.
  intros HI He Hc.
  assert (currentPage (ui (world m)) = practice
          ∧ isLoading (ui (world m)) = false
          ∧ truthy (trim (userAnswer (ui (world m)))) = true)
    as (Hp & Hl & Ha).
  { unfold reviewEnabled, onPractice in He.
    destruct (currentPage _), (isLoading _), (truthy _); done. }
  destruct HI as (Hco & Hte & Hpe).
  destruct (pending m) as [k0|] eqn:Hpend; [destruct Hpe; congruence|].
  destruct (sentencesData (ui (world m)) !! currentSentenceIndex (ui (world m)))
    as [item|] eqn:Hitem.
  - destruct (handleGetReview_resume (ui (world m)) (world m) item Ha Hitem)
      as (k & Hk & Hres).
    unfold call in Hc. rewrite Hk in Hc. cbn [settle] in Hc.
    rewrite Hpend in Hc. injection Hc as <-.
    assert (Frame (world m) (loading (world m))) as Hfl by (by repeat split).
    split_and!; [by eapply Coherent_frame|done|].
    cbn [pending world]. split; [done|].
    intros w' Hf r.
    pose proof (Frame_trans _ _ _ Hfl Hf) as Hf'.
    destruct (Hres r w') as (review & w1' & -> & Hw1).
    assert (Frame w' w1' ∧ selectedTenses (ui w1') = selectedTenses (ui w')
            ∧ isAuthReady (ui w1') = isAuthReady (ui w')) as (Hf1 & Ht1 & Ha1).
    { destruct (firstText r).
      - destruct Hw1 as [_ ->]. split; [apply Frame_refl|done].
      - destruct Hw1 as (_ & message & ->). by repeat split. }
    pose proof (Frame_trans _ _ _ Hf' Hf1) as (Hfp & Hfd & Hfi & _).
    eexists. split; [reflexivity|]. split_and!; [|done..].
    apply Coherent_reviewed; [|congruence..|done].
    eapply Coherent_frame; [exact Hco|]. by eapply Frame_trans.
  - unfold call, handleGetReview in Hc. rewrite Ha, Hitem in Hc.
    cbn [negb settle throw] in Hc. injection Hc as <-.
    destruct m as [w p]. cbn [world pending] in *. subst p. by split_and!.
Qed.

(** The next button. *)
Lemma Inv_next (m m' : Machine) :
  Inv m → nextEnabled (ui (world m)) = true →
  call handleNextOrFinish m = Some m' → Inv m'.
Proof.
  intros HI He Hc.
  assert (currentPage (ui (world m)) = practice
          ∧ isLoading (ui (world m)) = false) as (Hp & Hl).
  { unfold nextEnabled, onPractice in He.
    destruct (currentPage _), (isLoading _); done. }
  destruct HI as (Hco & Hte & Hpe).
  destruct (pending m) as [k0|] eqn:Hpend; [destruct Hpe; congruence|].
  unfold call in Hc.
  destruct (ltNum (Num (Z.of_nat (currentSentenceIndex (ui (world m)))))
              (subNum (numSentences (ui (world m))) (Num 1))) eqn:Hlt.
  - rewrite (handleNextOrFinish_advance _ _ Hlt) in Hc.
    cbn [settle] in Hc. rewrite Hpend in Hc. injection Hc as <-.
    split_and!; [|done..].
    destruct Hco as [H1 H2 H3 H4 H5 H6 H7].
    destruct m as [w p]. cbn [world pending] in *. clear Hpe Hte Hlt He.
    open_world w. subst. split; fields; try done.
    + intros item Hi. eapply H5; [|exact Hi]. lia.
    + intros j item Hj Hi. eapply H5; [|exact Hi]. lia.
  - rewrite (handleNextOrFinish_finish _ _ Hlt) in Hc.
    cbn [settle] in Hc. rewrite Hpend in Hc. injection Hc as <-.
    split_and!; [|by split; [constructor|intros ? ?%elem_of_nil]|done].
    destruct m as [w p]. cbn [world pending] in *.
    open_world w. split; fields; try done.
    + rewrite length_app. simpl. lia.
    + constructor.
    + by intros item ?%elem_of_nil.
Qed.

(** Typing into the answer field. *)
Lemma Inv_answer (m : Machine) (value : jsstring) :
  Inv m → onPractice (ui (world m)) = true →
  Inv {| world := onUi (setUserAnswer value) (world m); pending := pending m |}.
Proof.
  intros (Hco & Hte & Hpe) He.
  assert (currentPage (ui (world m)) = practice
          ∧ isLoading (ui (world m)) = false) as (Hp & Hl).
  { unfold onPractice in He. destruct (currentPage _), (isLoading _); done. }
  destruct (pending m) as [k0|] eqn:Hpend; [destruct Hpe; congruence|].
  split_and!; [|done..].
  destruct Hco as [H1 H2 H3 H4 H5 H6 H7].
  destruct m as [w p]. cbn [world pending] in *. clear Hpe Hte He.
  open_world w. subst. by split; fields.
Qed.

(** The end of an exchange. *)
Lemma Inv_arrived (m m' : Machine) (r : Fetched) :
  Inv m → dispatch m (Arrived r) = Some m' → Inv m'.
Proof.
  intros (Hco & Hte & Hpe) Hd. cbn [dispatch] in Hd.
  destruct (pending m) as [k|]; [|done].
  destruct Hpe as [_ Hk].
  destruct (Hk (world m) (Frame_refl _) r) as (w2 & Hw2 & Hc2 & Hl2 & Ht2 & _).
  rewrite Hw2 in Hd. cbn [settle] in Hd. injection Hd as <-.
  split_and!; [done| |done].
  destruct Hte as [Hnd Hsub]. unfold TensesOk. cbn [world]. by rewrite Ht2.
Qed.

(** Every event keeps the invariant. *)
Lemma Inv_dispatch (m m' : Machine) (e : Event) :
  Inv m → dispatch m e = Some m' → Inv m'.
Proof.
  intros HI Hd.
  pose proof HI as (Hco & Hte & Hpe).
  destruct e as [outcome|tense|value|checked|value| |value| | |r];
    cbn [dispatch] in Hd.
  - destruct outcome; injection Hd as <-.
    + by apply (Inv_update m (setIsAuthReady true)).
    + by apply (Inv_update m (fun s => setIsAuthReady true (setErrorMessage _ s))).
    + by apply (Inv_update m (fun s => setIsAuthReady true (setErrorMessage _ s))).
  - destruct (onStart _) eqn:Hs; [|done].
    case_bool_decide as Hin; [|done]. cbn [andb] in Hd.
    unfold handleTenseChange in Hd.
    rewrite call_update in Hd. injection Hd as <-.
    apply Inv_update; [done|by repeat split|done|].
    by apply (toggle_TensesOk (ui (world m)) tense).
  - destruct (onStart _); [|done]. rewrite call_update in Hd. injection Hd as <-.
    by apply Inv_update.
  - destruct (onStart _); [|done]. rewrite call_update in Hd. injection Hd as <-.
    by apply Inv_update.
  - destruct (onStart _); [|done]. rewrite call_update in Hd. injection Hd as <-.
    by apply Inv_update.
  - destruct (startEnabled _) eqn:He; [|done]. by eapply Inv_start.
  - destruct (onPractice _) eqn:He; [|done].
    rewrite call_update in Hd. injection Hd as <-. by apply Inv_answer.
  - destruct (reviewEnabled _) eqn:He; [|done]. by eapply Inv_review.
  - destruct (nextEnabled _) eqn:He; [|done]. by eapply Inv_next.
  - by eapply Inv_arrived.
Qed.

Lemma Inv_mounted : Inv mounted.
Proof.
  split_and!.
  - split; cbn; try done.
    + lia.
    + constructor.
    + by intros item ?%elem_of_nil.
  - split; [constructor|]. by intros t ?%elem_of_nil.
  - done.
Qed.

Lemma Inv_run (es : list Event) (m m' : Machine) :
  Inv m → dispatchAll m es = Some m' → Inv m'.
Proof.
  revert m. induction es as [|e es IH]; intros m HI; cbn [dispatchAll].
  - by intros [= <-].
  - destruct (dispatch m e) as [m1|] eqn:Hd; [|done].
    apply IH. by eapply Inv_dispatch.
Qed.

Transparent js.

(** ** What holds on every screen a user can reach *)

(** X1. On every run of events from the mounted component, the loading
    flag is set exactly while a handler is waiting for the network. *)
Theorem loading_exactly_while_waiting (es : list Event) (m : Machine) :
  dispatchAll mounted es = Some m →
  (isLoading (ui (world m)) = true ↔ is_Some (pending m)).
Proof.
  intros Hrun. destruct (Inv_run es mounted m Inv_mounted Hrun) as (_ & _ & Hp).
  destruct (pending m) as [k|].
  - destruct Hp as [-> _]. split; [by eexists|done].
  - rewrite Hp. split; [done|by intros [? ?]].
Qed.

Lemma loading_exactly_while_waiting_witness :
  ∃ m, dispatchAll mounted
         [AuthSettled SignedIn; TenseToggled (js "Past Simple"); StartClicked]
       = Some m
       ∧ (isLoading (ui (world m)) = true ↔ is_Some (pending m)).
Proof.
  eexists. split; [reflexivity|].
  apply (loading_exactly_while_waiting
           [AuthSettled SignedIn; TenseToggled (js "Past Simple"); StartClicked]).
  reflexivity.
Defined.

(** X2. While a request is out, on any run from the mounted component,
    none of the three buttons and no typing into the answer field is
    possible, so there is never a second request; and whatever the
    exchange brings, the waiting handler finishes (it returns: it does
    not throw and does not wait again), leaving no request out and the
    loading flag cleared. *)
Theorem one_request_and_it_settles (es : list Event) (m : Machine) :
  dispatchAll mounted es = Some m → is_Some (pending m) →
  dispatch m StartClicked = None
  ∧ dispatch m ReviewClicked = None
  ∧ dispatch m NextClicked = None
  ∧ (∀ value, dispatch m (AnswerChanged value) = None)
  ∧ ∀ r, ∃ m', dispatch m (Arrived r) = Some m'
               ∧ pending m' = None
               ∧ isLoading (ui (world m')) = false
               ∧ ∃ k, pending m = Some k
                      ∧ k r (world m) = Finished (world m') tt.
Proof.
  intros Hrun [k Hk].
  destruct (Inv_run es mounted m Inv_mounted Hrun) as (_ & _ & Hp).
  rewrite Hk in Hp. destruct Hp as [Hl Hres].
  split_and!.
  - cbn [dispatch]. unfold startEnabled. rewrite Hl.
    by rewrite andb_false_r.
  - cbn [dispatch]. unfold reviewEnabled, onPractice. rewrite Hl.
    by destruct (currentPage _).
  - cbn [dispatch]. unfold nextEnabled, onPractice. rewrite Hl.
    by destruct (currentPage _).
  - intros value. cbn [dispatch]. unfold onPractice. rewrite Hl.
    by destruct (currentPage _).
  - intros r. cbn [dispatch]. rewrite Hk.
    destruct (Hres (world m) (Frame_refl _) r) as (w2 & Hw2 & _ & Hl2 & _).
    rewrite Hw2.
    exists {| world := w2; pending := None |}.
    split_and!; [reflexivity..|exact Hl2|].
    exists k. split; [reflexivity|exact Hw2].
Qed.

Lemma one_request_and_it_settles_witness :
  ∃ m, dispatchAll mounted
         [AuthSettled SignedIn; TenseToggled (js "Past Simple"); StartClicked]
       = Some m
       ∧ dispatch m StartClicked = None
       ∧ ∀ r, ∃ m', dispatch m (Arrived r) = Some m'
                    ∧ pending m' = None
                    ∧ isLoading (ui (world m')) = false
                    ∧ ∃ k, pending m = Some k
                           ∧ k r (world m) = Finished (world m') tt.
Proof.
  eexists. split; [reflexivity|].
  destruct (one_request_and_it_settles
              [AuthSettled SignedIn; TenseToggled (js "Past Simple"); StartClicked]
              _ eq_refl) as (H1 & _ & _ & _ & H5).
  - eexists. reflexivity.
  - split; [exact H1 | exact H5].
Defined.

(** X3. On every run from the mounted component, the start screen
    carries nothing of a session: no practice items, index 0, an empty
    answer and an empty review. *)
Theorem start_screen_carries_no_session (es : list Event) (m : Machine) :
  dispatchAll mounted es = Some m →
  currentPage (ui (world m)) = start →
  sentencesData (ui (world m)) = []
  ∧ currentSentenceIndex (ui (world m)) = 0%nat
  ∧ userAnswer (ui (world m)) = []
  ∧ currentReview (ui (world m)) = [].
Proof.
  intros Hrun Hp.
  destruct (Inv_run es mounted m Inv_mounted Hrun) as (Hc & _ & _).
  by apply (start_is_clear _ Hc).
Qed.

Lemma start_screen_carries_no_session_witness :
  ∃ m, dispatchAll mounted
         [AuthSettled SignedIn; TenseToggled (js "Past Simple"); StartClicked;
          Arrived (NetworkError (js "Failed to fetch"))]
       = Some m
       ∧ sentencesData (ui (world m)) = []
       ∧ currentSentenceIndex (ui (world m)) = 0%nat
       ∧ userAnswer (ui (world m)) = []
       ∧ currentReview (ui (world m)) = [].
Proof.
  eexists. split; [vm_compute; reflexivity|].
  apply (start_screen_carries_no_session
           [AuthSettled SignedIn; TenseToggled (js "Past Simple"); StartClicked;
            Arrived (NetworkError (js "Failed to fetch"))]).
  - vm_compute. reflexivity.
  - vm_compute. reflexivity.
Defined.

(** X4. On every run from the mounted component, the practice screen has
    at least one practice item; the review shown is the review stored in
    the item at the current index, when there is one, so the next button
    is offered only if that item has a non-empty review; and no item past
    the current index has a review. *)
Theorem shown_review_is_the_stored_one (es : list Event) (m : Machine) :
  dispatchAll mounted es = Some m →
  currentPage (ui (world m)) = practice →
  sentencesData (ui (world m)) ≠ []
  ∧ (∀ item,
       sentencesData (ui (world m)) !! currentSentenceIndex (ui (world m))
       = Some item →
       PracticeItem.geminiReview item = currentReview (ui (world m))
       ∧ (nextEnabled (ui (world m)) = true →
          PracticeItem.geminiReview item ≠ []))
  ∧ (∀ j item,
       (currentSentenceIndex (ui (world m)) < j)%nat →
       sentencesData (ui (world m)) !! j = Some item →
       PracticeItem.geminiReview item = []).
Proof.
  intros Hrun Hp.
  destruct (Inv_run es mounted m Inv_mounted Hrun) as (Hc & _ & _).
  split_and!.
  - by apply (practice_has_items _ Hc).
  - intros item Hi. pose proof (review_is_current _ Hc item Hi) as Hr.
    split; [done|]. rewrite Hr. unfold nextEnabled.
    destruct (currentReview _); [|done].
    by rewrite orb_true_r, andb_false_r.
  - apply (later_unreviewed _ Hc).
Qed.

Lemma shown_review_is_the_stored_one_witness :
  ∃ m, dispatchAll mounted lastItemReviewed = Some m
       ∧ sentencesData (ui (world m)) ≠ []
       ∧ (∀ item,
            sentencesData (ui (world m)) !! currentSentenceIndex (ui (world m))
            = Some item →
            PracticeItem.geminiReview item = currentReview (ui (world m))
            ∧ (nextEnabled (ui (world m)) = true →
               PracticeItem.geminiReview item ≠ []))
       ∧ (∀ j item,
            (currentSentenceIndex (ui (world m)) < j)%nat →
            sentencesData (ui (world m)) !! j = Some item →
            PracticeItem.geminiReview item = []).
Proof.
  eexists. split; [vm_compute; reflexivity|].
  apply (shown_review_is_the_stored_one lastItemReviewed).
  - vm_compute. reflexivity.
  - vm_compute. reflexivity.
Defined.

(** X5. On every run from the mounted component, the Set object held in
    the state exists, the sentences of the practice items are pairwise
    distinct, and each of them is in that Set. *)
Theorem session_sentences_distinct_and_seen (es : list Event) (m : Machine) :
  dispatchAll mounted es = Some m →
  is_Some (store (world m) !! generatedSentencesSet (ui (world m)))
  ∧ NoDup (PracticeItem.originalSentence <$> sentencesData (ui (world m)))
  ∧ ∀ item, item ∈ sentencesData (ui (world m)) →
            PracticeItem.originalSentence item
            ∈ contents (world m) (generatedSentencesSet (ui (world m))).
Proof.
  intros Hrun.
  destruct (Inv_run es mounted m Inv_mounted Hrun) as (Hc & _ & _).
  split_and!.
  - apply lookup_lt_is_Some. apply (set_is_live _ Hc).
  - apply (sentences_distinct _ Hc).
  - apply (sentences_seen _ Hc).
Qed.

Lemma session_sentences_distinct_and_seen_witness :
  ∃ m, dispatchAll mounted lastItemReviewed = Some m
       ∧ is_Some (store (world m) !! generatedSentencesSet (ui (world m)))
       ∧ NoDup (PracticeItem.originalSentence <$> sentencesData (ui (world m)))
       ∧ ∀ item, item ∈ sentencesData (ui (world m)) →
                 PracticeItem.originalSentence item
                 ∈ contents (world m) (generatedSentencesSet (ui (world m))).
Proof.
  eexists. split; [vm_compute; reflexivity|].
  apply (session_sentences_distinct_and_seen lastItemReviewed).
  vm_compute. reflexivity.
Defined.

(** X6. On every run from the mounted component, the selection holds
    each tense at most once and only tenses of the twelve offered, hence
    at most twelve. *)
Theorem selection_is_well_formed (es : list Event) (m : Machine) :
  dispatchAll mounted es = Some m →
  NoDup (selectedTenses (ui (world m)))
  ∧ selectedTenses (ui (world m)) ⊆ availableTenses
  ∧ (length (selectedTenses (ui (world m))) ≤ 12)%nat.
Proof.
  intros Hrun.
  destruct (Inv_run es mounted m Inv_mounted Hrun) as (_ & [Hnd Hsub] & _).
  split_and!; [done..|].
  change 12%nat with (length availableTenses).
  by apply submseteq_length, NoDup_submseteq.
Qed.

Lemma selection_is_well_formed_witness :
  ∃ m, dispatchAll mounted
         [TenseToggled (js "Past Simple"); TenseToggled (js "Future Perfect");
          TenseToggled (js "Past Simple"); TenseToggled (js "Past Simple")]
       = Some m
       ∧ NoDup (selectedTenses (ui (world m)))
       ∧ selectedTenses (ui (world m)) ⊆ availableTenses
       ∧ (length (selectedTenses (ui (world m))) ≤ 12)%nat.
Proof.
  eexists. split; [vm_compute; reflexivity|].
  apply (selection_is_well_formed
           [TenseToggled (js "Past Simple"); TenseToggled (js "Future Perfect");
            TenseToggled (js "Past Simple"); TenseToggled (js "Past Simple")]).
  vm_compute. reflexivity.
Defined.

(** ** The tense checkboxes *)

Lemma filter_all {A : Type} (P : A → Prop) `{!∀ x, Decision (P x)} (l : list A) :
  (∀ x, x ∈ l → P x) → filter P l = l.
Proof.
  induction l as [|x l IH]; intros Hall; [done|].
  rewrite filter_cons_True by (apply Hall; left).
  f_equal. apply IH. intros y Hy. apply Hall. by right.
Qed.

(** X7. A click on the checkbox of an offered tense, on the start
    screen, flips that tense in the selection and leaves every other
    tense as it was; a second click restores the selection, exactly when
    the tense was not selected before, and up to the order of the tenses
    when it was (the tense moves to the end). *)
Theorem toggle_flips_one_tense (m : Machine) (tense : jsstring) :
  currentPage (ui (world m)) = start → tense ∈ availableTenses →
  ∃ m1 m2,
    dispatch m (TenseToggled tense) = Some m1
    ∧ dispatch m1 (TenseToggled tense) = Some m2
    ∧ (tense ∈ selectedTenses (ui (world m1))
       ↔ tense ∉ selectedTenses (ui (world m)))
    ∧ (∀ t, t ≠ tense →
         (t ∈ selectedTenses (ui (world m1))
          ↔ t ∈ selectedTenses (ui (world m))))
    ∧ (tense ∉ selectedTenses (ui (world m)) →
       selectedTenses (ui (world m2)) = selectedTenses (ui (world m)))
    ∧ (NoDup (selectedTenses (ui (world m))) →
       selectedTenses (ui (world m2)) ≡ₚ selectedTenses (ui (world m))).
Proof.
  intros Hp Hin. cbn [dispatch]. unfold onStart. rewrite Hp.
  rewrite bool_decide_eq_true_2 by done. cbn [andb].
  unfold handleTenseChange. rewrite call_update.
  eexists _, _. split; [reflexivity|].
  cbn [world ui onUi currentPage setSelectedTenses]. rewrite Hp.
  rewrite call_update. split; [reflexivity|].
  cbn [world ui onUi selectedTenses setSelectedTenses].
  set (sel := selectedTenses (ui (world m))).
  destruct (decide (tense ∈ sel)) as [Hsel|Hsel].
  - rewrite (bool_decide_eq_true_2 (tense ∈ sel)) by done.
    assert (tense ∉ filter (λ t, t ≠ tense) sel) as Hout.
    { by intros [? _]%list_elem_of_filter. }
    rewrite bool_decide_eq_false_2 by done.
    split_and!.
    + done.
    + intros t Ht. rewrite list_elem_of_filter. split; [by intros [_ ?]|done].
    + done.
    + intros Hnd. apply NoDup_Permutation; [|done|].
      * apply NoDup_app. split_and!; [by apply NoDup_filter| |apply NoDup_singleton].
        intros t Ht ->%list_elem_of_singleton. done.
      * intros t. rewrite elem_of_app, list_elem_of_filter, list_elem_of_singleton.
        destruct (decide (t = tense)) as [->|Hne].
        -- split; [done|by right].
        -- split; [by intros [[_ ?]|?]|by left].
  - rewrite (bool_decide_eq_false_2 (tense ∈ sel)) by done.
    rewrite bool_decide_eq_true_2 by (apply elem_of_app; right; by left).
    assert (filter (λ t, t ≠ tense) (sel ++ [tense]) = sel) as Hback.
    { rewrite filter_app, filter_all by (by intros t Ht ->).
      rewrite filter_cons_False by (by intros ?). by rewrite app_nil_r. }
    split_and!.
    + split; [done|]. intros _. apply elem_of_app. right. by left.
    + intros t Ht. rewrite elem_of_app, list_elem_of_singleton.
      split; [by intros [?|?]|by left].
    + done.
    + intros _. by rewrite Hback.
Qed.

Lemma toggle_flips_one_tense_witness :
  ∃ m1 m2,
    dispatch mounted (TenseToggled (js "Past Simple")) = Some m1
    ∧ dispatch m1 (TenseToggled (js "Past Simple")) = Some m2
    ∧ (js "Past Simple" ∈ selectedTenses (ui (world m1))
       ↔ js "Past Simple" ∉ selectedTenses (ui (world mounted)))
    ∧ (∀ t, t ≠ js "Past Simple" →
         (t ∈ selectedTenses (ui (world m1))
          ↔ t ∈ selectedTenses (ui (world mounted))))
    ∧ (js "Past Simple" ∉ selectedTenses (ui (world mounted)) →
       selectedTenses (ui (world m2)) = selectedTenses (ui (world mounted)))
    ∧ (NoDup (selectedTenses (ui (world mounted))) →
       selectedTenses (ui (world m2)) ≡ₚ selectedTenses (ui (world mounted))).
Proof.
  apply (toggle_flips_one_tense mounted (js "Past Simple")).
  - reflexivity.
  - vm_compute. do 4 right. left.
Defined.

(** ** The dead end *)

Lemma DeadEnd_step (m m' : Machine) (e : Event) :
  DeadEnd m → dispatch m e = Some m' →
  DeadEnd m'
  ∧ sentencesData (ui (world m')) = sentencesData (ui (world m))
  ∧ currentSentenceIndex (ui (world m')) = currentSentenceIndex (ui (world m)).
Proof.
  intros (Hp & Hl & Hpend & Hitem & Hrev) Hd.
  assert (onStart (ui (world m)) = false) as Hs by (unfold onStart; by rewrite Hp).
  assert (onPractice (ui (world m)) = true) as Hpr
    by (unfold onPractice; by rewrite Hp, Hl).
  destruct e as [outcome|tense|value|checked|value| |value| | |r];
    cbn [dispatch] in Hd; rewrite ?Hs, ?Hpr in Hd; try done.
  - destruct outcome; injection Hd as <-; by repeat split.
  - unfold startEnabled in Hd. by rewrite Hs in Hd.
  - rewrite call_update in Hd. injection Hd as <-. by repeat split.
  - destruct (reviewEnabled _) eqn:He; [|done].
    unfold reviewEnabled in He. rewrite Hpr, Hl in He.
    destruct (truthy (trim (userAnswer (ui (world m))))) eqn:Ha; [|done].
    unfold call, handleGetReview in Hd. rewrite Ha, Hitem in Hd.
    cbn [negb settle throw] in Hd. injection Hd as <-. by repeat split.
  - unfold nextEnabled in Hd. rewrite Hrev in Hd.
    by rewrite orb_true_r, andb_false_r in Hd.
  - by rewrite Hpend in Hd.
Qed.

(** X8. Once the practice screen stands on an index with no item and no
    review shown, nothing the user or the network can do changes that:
    after any events the screen, the list and the index are the same, the
    sentence shown is the notice of a failed load, and the next button is
    disabled. *)
Theorem dead_end_is_final (m m' : Machine) (es : list Event) :
  DeadEnd m → dispatchAll m es = Some m' →
  DeadEnd m'
  ∧ sentencesData (ui (world m')) = sentencesData (ui (world m))
  ∧ currentSentenceIndex (ui (world m')) = currentSentenceIndex (ui (world m))
  ∧ shownSentence (ui (world m')) = js "Не вдалося завантажити речення."
  ∧ dispatch m' NextClicked = None.
Proof.
  revert m. induction es as [|e es IH]; intros m Hm; cbn [dispatchAll].
  - intros [= <-]. split_and!; [done..| |].
    + destruct Hm as (_ & _ & _ & Hitem & _).
      unfold shownSentence. by rewrite Hitem.
    + destruct Hm as (_ & _ & _ & _ & Hrev).
      cbn [dispatch]. unfold nextEnabled. rewrite Hrev.
      by rewrite orb_true_r, andb_false_r.
  - destruct (dispatch m e) as [m1|] eqn:Hd; [|done]. intros Hrun.
    destruct (DeadEnd_step m m1 e Hm Hd) as (Hm1 & Hd1 & Hi1).
    destruct (IH m1 Hm1 Hrun) as (? & ? & ? & ? & ?).
    split_and!; [done|congruence|congruence|done|done].
Qed.

Lemma dead_end_is_final_witness :
  ∃ m m',
    dispatchAll mounted shortSession = Some m
    ∧ dispatchAll m [AnswerChanged (js "Again."); ReviewClicked;
                     AuthSettled SignedIn] = Some m'
    ∧ DeadEnd m'
    ∧ sentencesData (ui (world m')) = sentencesData (ui (world m))
    ∧ currentSentenceIndex (ui (world m')) = currentSentenceIndex (ui (world m))
    ∧ shownSentence (ui (world m')) = js "Не вдалося завантажити речення."
    ∧ dispatch m' NextClicked = None.
Proof.
  eexists _, _. split; [vm_compute; reflexivity|].
  split; [vm_compute; reflexivity|].
  apply (dead_end_is_final _ _ [AnswerChanged (js "Again."); ReviewClicked;
                                AuthSettled SignedIn]).
  - repeat split; vm_compute; reflexivity.
  - vm_compute. reflexivity.
Defined.

(** ** More on starting a practice *)

Lemma scanLines_none (lines : list jsstring) (U : gset jsstring)
    (acc : list Parsed) :
  (∀ line, line ∈ lines → lineMatch line = None) →
  scanLines lines U acc = (U, acc).
Proof.
  induction lines as [|line rest IH]; intros Hnone; [done|].
  cbn [scanLines]. rewrite (Hnone line) by left.
  apply IH. intros l Hl. apply Hnone. by right.
Qed.

Lemma slice0_nil {A : Type} (n : number) : slice0 ([] : list A) n = [].
Proof.
  unfold slice0. destruct n as [z|]; [|done].
  destruct (z <? 0)%Z; apply take_nil.
Qed.

Lemma handleStartPractice_complete (c : AppState) (w : World) (r : Fetched) :
  selectedTenses c ≠ [] → leNum (numSentences c) (Num 0) = false →
  ∃ k,
    complete (handleStartPractice c w) r = k r (loading (began w))
    ∧ (∀ r w1 text U,
         firstText r = Some text →
         store w1 !! length (store w) = Some U →
         k r w1
         = Finished
             (onUi (match slice0 (snd (scanLines (responseLines text) U []))
                            (numSentences c) with
                    | [] => noSession
                    | generated => sessionOf generated
                    end)
                (withStore w1
                   (<[length (store w) :=
                        fst (scanLines (responseLines text) U [])]> (store w1))))
             tt)
    ∧ (∀ r w1, firstText r = None → k r w1 = Finished (onUi noSession w1) tt).
Proof.
  intros Ht Hn.
  destruct (handleStartPractice_resume c w Ht Hn) as (k & -> & Hok & Hfail).
  exists k. split; [reflexivity|]. split; [|done].
  intros r' w1 text U Hr HU. rewrite (Hok r' w1 text U Hr HU). cbv zeta.
  by destruct (slice0 _ _).
Qed.

(** X9. Whenever a begin action that passed its guards ends without
    sentences (the exchange failed, or no line of the reply matches the
    pattern, or the count is NaN), the message left on the start screen
    is the general one, whatever message the generation client had set;
    the session is empty, the loading flag is cleared, and the screen and
    the configuration are as they were. *)
Theorem begin_without_sentences_reports (c : AppState) (w : World) (r : Fetched) :
  selectedTenses c ≠ [] → leNum (numSentences c) (Num 0) = false →
  (firstText r = None
   ∨ numSentences c = NaN
   ∨ ∃ text, firstText r = Some text
             ∧ ∀ line, line ∈ responseLines text → ¬ wellFormed line) →
  ∃ w',
    complete (handleStartPractice c w) r = Finished w' tt
    ∧ errorMessage (ui w') = noSentencesMessage
    ∧ sentencesData (ui w') = []
    ∧ isLoading (ui w') = false
    ∧ currentPage (ui w') = currentPage (ui w)
    ∧ selectedTenses (ui w') = selectedTenses (ui w)
    ∧ selectedThemes (ui w') = selectedThemes (ui w)
    ∧ numSentences (ui w') = numSentences (ui w).
Proof.
  intros Ht Hn Hcase.
  destruct (handleStartPractice_complete c w r Ht Hn) as (k & -> & Hok & Hfail).
  assert (∃ st, k r (loading (began w))
                = Finished (onUi noSession (withStore (loading (began w)) st)) tt)
    as [st ->].
  { destruct (firstText r) as [text|] eqn:Hr.
    - rewrite (Hok r (loading (began w)) text ∅ Hr (began_lookup w)).
      assert (slice0 (snd (scanLines (responseLines text) ∅ [])) (numSentences c)
              = []) as ->; [|by eexists].
      destruct Hcase as [?|[HNaN|(text' & [= <-] & Hnone)]]; [done| |].
      + by rewrite HNaN.
      + rewrite scanLines_none.
        * apply slice0_nil.
        * intros line Hl. destruct (lineMatch line) eqn:Hm; [|done].
          exfalso. apply (Hnone line Hl), lineMatch_wellFormed. by eexists.
    - rewrite (Hfail r _ Hr). exists (store (loading (began w))).
      by destruct w. }
  eexists. split; [reflexivity|]. open_world w. by split_and!.
Qed.

Lemma begin_without_sentences_reports_witness :
  ∃ w',
    complete (handleStartPractice (setNumSentences NaN oneTense) initialWorld)
      (replied twoSentences) = Finished w' tt
    ∧ errorMessage (ui w') = noSentencesMessage
    ∧ sentencesData (ui w') = []
    ∧ isLoading (ui w') = false
    ∧ currentPage (ui w') = currentPage (ui initialWorld)
    ∧ selectedTenses (ui w') = selectedTenses (ui initialWorld)
    ∧ selectedThemes (ui w') = selectedThemes (ui initialWorld)
    ∧ numSentences (ui w') = numSentences (ui initialWorld).
Proof.
  apply (begin_without_sentences_reports (setNumSentences NaN oneTense)
           initialWorld (replied twoSentences)).
  - by vm_compute.
  - reflexivity.
  - right. left. reflexivity.
Defined.

Opaque js.

(** X10. When the exchange brings no text, the generation client
    returns null and changes nothing but the loading flag, which it
    clears, and the error message, which names the cause: the message of
    the rejection, the status and message of a response that is not ok
    ("Unknown error" when the service gave none), the notice of an
    unexpected structure, or the message of the TypeError thrown on a
    body or a first candidate that is null or on a first part that has
    no text to trim.  No Set object is touched. *)
Theorem generation_failure_returns_null (tenses : list jsstring)
    (themes : jsstring) (n : number) (l : loc) (w : World) (r : Fetched) :
  firstText r = None →
  ∃ cause,
    complete (generateSentences tenses themes n l w) r
    = Finished
        (onUi (fun s =>
                 setIsLoading false
                   (setErrorMessage
                      (js "Failed to generate sentences: " ++ cause
                       ++ js ". Please try again.") s)) w)
        None
    ∧ cause
      = match r with
        | NetworkError message => message
        | Responded response =>
            match body response with
            | NotJson message => message
            | JsonNull message => message
            | Json e candidates =>
                if ok response
                then match candidates with
                     | NullCandidate message :: _ => message
                     | Content (Some (NoText message :: _)) :: _ => message
                     | _ => js "Unexpected response structure from Gemini or no content generated."
                     end
                else js "API error: " ++ numberToString (Num (status response))
                     ++ js " - " ++ orElse e (js "Unknown error")
            end
        end.
Proof.
  intros Hr.
  exchange_cases r Hr; eexists; (split; [|reflexivity]);
    simpl; fields; reflexivity.
Qed.

Transparent js.

Lemma generation_failure_returns_null_witness :
  ∃ cause,
    complete (generateSentences [js "Past Simple"] [] (Num 3) 0%nat initialWorld)
      textlessReply
    = Finished
        (onUi (fun s =>
                 setIsLoading false
                   (setErrorMessage
                      (js "Failed to generate sentences: " ++ cause
                       ++ js ". Please try again.") s)) initialWorld)
        None
    ∧ cause = typeErrorSample.
Proof.
  destruct (generation_failure_returns_null [js "Past Simple"] [] (Num 3) 0%nat
              initialWorld
              textlessReply
              eq_refl) as (cause & H1 & H2).
  exists cause. split; [exact H1|]. rewrite H2. vm_compute. reflexivity.
Defined.

(** ** More on reviewing *)

(** X11. A completed review request on an existing item rewrites that
    item's answer and review and nothing else of the session: the list
    keeps its length, every other item, and the sentence and tense of the
    reviewed one; the index, the screen, the typed answer, the
    configuration (tenses, themes, count, display option), the
    authentication flag and the store of Set objects are as before. *)
Theorem review_touches_one_item (w : World) (r : Fetched)
    (item : PracticeItem.t) :
  truthy (trim (userAnswer (ui w))) = true →
  sentencesData (ui w) !! currentSentenceIndex (ui w) = Some item →
  ∃ w',
    complete (handleGetReview (ui w) w) r = Finished w' tt
    ∧ length (sentencesData (ui w')) = length (sentencesData (ui w))
    ∧ (∀ j, j ≠ currentSentenceIndex (ui w) →
            sentencesData (ui w') !! j = sentencesData (ui w) !! j)
    ∧ (∃ review,
         sentencesData (ui w') !! currentSentenceIndex (ui w)
         = Some {| PracticeItem.originalSentence :=
                     PracticeItem.originalSentence item;
                   PracticeItem.userAnswer := userAnswer (ui w);
                   PracticeItem.geminiReview := review;
                   PracticeItem.tenseUsed := PracticeItem.tenseUsed item |})
    ∧ currentSentenceIndex (ui w') = currentSentenceIndex (ui w)
    ∧ currentPage (ui w') = currentPage (ui w)
    ∧ userAnswer (ui w') = userAnswer (ui w)
    ∧ selectedTenses (ui w') = selectedTenses (ui w)
    ∧ numSentences (ui w') = numSentences (ui w)
    ∧ selectedThemes (ui w') = selectedThemes (ui w)
    ∧ showTenseInPractice (ui w') = showTenseInPractice (ui w)
    ∧ isAuthReady (ui w') = isAuthReady (ui w)
    ∧ generatedSentencesSet (ui w') = generatedSentencesSet (ui w)
    ∧ store w' = store w.
Proof.
  intros Ha Hitem.
  assert (currentSentenceIndex (ui w) < length (sentencesData (ui w)))%nat
    as Hlt by (by eapply lookup_lt_Some).
  destruct (handleGetReview_resume (ui w) w item Ha Hitem) as (k & -> & Hres).
  cbn [complete].
  destruct (Hres r (loading w)) as (review & w1 & -> & Hw1).
  assert (∃ message, w1 = onUi (setErrorMessage message) (loading w))
    as [message ->].
  { destruct (firstText r).
    - destruct Hw1 as [_ ->]. exists []. clear. open_world w. reflexivity.
    - destruct Hw1 as (_ & message & ->). eexists. reflexivity. }
  eexists. split; [reflexivity|].
  clear Hres Hw1 Ha. open_world w.
  split_and!; try done.
  - by rewrite length_insert.
  - intros j Hj. by rewrite list_lookup_insert_ne.
  - exists review. by rewrite list_lookup_insert_eq.
Qed.

Lemma review_touches_one_item_witness :
  ∃ w',
    complete (handleGetReview (ui answeringWorld) answeringWorld)
      (replied (js "Wrong article.")) = Finished w' tt
    ∧ length (sentencesData (ui w')) = length (sentencesData (ui answeringWorld))
    ∧ store w' = store answeringWorld.
Proof.
  destruct (review_touches_one_item answeringWorld (replied (js "Wrong article."))
              {| PracticeItem.originalSentence := js "Я їм яблуко.";
                 PracticeItem.userAnswer := [];
                 PracticeItem.geminiReview := [];
                 PracticeItem.tenseUsed := js "Present Simple" |})
    as (w' & H1 & H2 & _ & _ & _ & _ & _ & _ & _ & _ & _ & _ & _ & H3).
  - vm_compute. reflexivity.
  - vm_compute. reflexivity.
  - exists w'. split; [exact H1|]. split; [exact H2 | exact H3].
Defined.

(** ** More on the begin action *)

(** X12. The begin action reaches the network exactly when a tense is
    selected and the count is not a number at or below zero; its request
    is then the generation prompt for the selected tenses, the themes and
    the count, so the default tense of the client is never used, and the
    handler waits in a world that is loading, without an error message
    and with a new empty Set object in the state. *)
Theorem begin_requests_iff_configured (c : AppState) (w : World) :
  ((selectedTenses c ≠ [] ∧ leNum (numSentences c) (Num 0) = false)
   ↔ ∃ w0 q k, handleStartPractice c w = Suspended w0 q k)
  ∧ ∀ w0 q k,
      handleStartPractice c w = Suspended w0 q k →
      q = generationPrompt (selectedTenses c) (selectedThemes c) (numSentences c)
      ∧ (0 <? length (selectedTenses c))%nat = true
      ∧ isLoading (ui w0) = true
      ∧ errorMessage (ui w0) = []
      ∧ contents w0 (generatedSentencesSet (ui w0)) = ∅.
Proof.
  assert (∀ w0 q k, handleStartPractice c w = Suspended w0 q k →
                    selectedTenses c ≠ []
                    ∧ leNum (numSentences c) (Num 0) = false) as Hback.
  { intros w0 q k. unfold handleStartPractice.
    destruct (selectedTenses c); [done|].
    by destruct (leNum _ _). }
  split.
  - split.
    + intros [Ht Hn].
      destruct (handleStartPractice_resume c w Ht Hn) as (k & Hk & _). eauto.
    + intros (w0 & q & k & H). by eapply Hback.
  - intros w0 q k H. destruct (Hback w0 q k H) as [Ht Hn].
    destruct (handleStartPractice_resume c w Ht Hn) as (k' & Hk & _).
    rewrite Hk in H. injection H as <- <- _.
    split_and!; try done.
    + by destruct (selectedTenses c).
    + change (default ∅ (store (began w) !! length (store w)) = ∅).
      by rewrite began_lookup.
Qed.

Lemma begin_requests_iff_configured_witness :
  ∃ w0 q k, handleStartPractice oneTense initialWorld = Suspended w0 q k.
Proof.
  destruct (begin_requests_iff_configured oneTense initialWorld) as [[H _] _].
  apply H. split; [by vm_compute|reflexivity].
Defined.



(** ** The next button and its caption *)

(** X14. The caption of the next button tells what a click does: under
    the caption of the last sentence the click returns to the start
    screen with the default configuration and an empty session; under the
    other caption it stays on the practice screen, moves the index one
    sentence forward and clears the answer, the review and the error.
    The two captions differ. *)
Theorem next_caption_tells_the_effect (m m' : Machine) :
  dispatch m NextClicked = Some m' →
  js "Далі" ≠ js "Завершити"
  ∧ ((nextLabel (ui (world m)) = js "Завершити"
      ∧ currentPage (ui (world m')) = start
      ∧ selectedTenses (ui (world m')) = []
      ∧ selectedThemes (ui (world m')) = []
      ∧ numSentences (ui (world m')) = Num 5
      ∧ sentencesData (ui (world m')) = []
      ∧ contents (world m') (generatedSentencesSet (ui (world m'))) = ∅)
     ∨ (nextLabel (ui (world m)) = js "Далі"
        ∧ currentPage (ui (world m')) = practice
        ∧ currentSentenceIndex (ui (world m'))
          = S (currentSentenceIndex (ui (world m)))
        ∧ sentencesData (ui (world m')) = sentencesData (ui (world m))
        ∧ userAnswer (ui (world m')) = []
        ∧ currentReview (ui (world m')) = []
        ∧ errorMessage (ui (world m')) = [])).
Proof.
  intros Hd. split; [by vm_compute|].
  cbn [dispatch] in Hd. destruct (nextEnabled _) eqn:He; [|done].
  assert (currentPage (ui (world m)) = practice) as Hp.
  { unfold nextEnabled, onPractice in He. by destruct (currentPage _). }
  unfold call in Hd. unfold nextLabel.
  destruct (ltNum _ _) eqn:Hlt.
  - rewrite (handleNextOrFinish_advance _ _ Hlt) in Hd.
    right. destruct m as [w p]. cbn [world pending] in *.
    destruct m' as [w' p']. cbn [settle] in Hd. injection Hd as <- <-.
    clear He Hlt. open_world w. by split_and!.
  - rewrite (handleNextOrFinish_finish _ _ Hlt) in Hd.
    left. destruct m as [w p]. cbn [world pending] in *.
    destruct m' as [w' p']. cbn [settle] in Hd. injection Hd as <- <-.
    clear He Hlt. open_world w. split_and!; try done.
    by rewrite list_lookup_middle.
Qed.

Lemma next_caption_tells_the_effect_witness :
  ∃ m m',
    dispatchAll mounted lastItemReviewed = Some m
    ∧ dispatch m NextClicked = Some m'
    ∧ js "Далі" ≠ js "Завершити"
    ∧ ((nextLabel (ui (world m)) = js "Завершити"
        ∧ currentPage (ui (world m')) = start
        ∧ selectedTenses (ui (world m')) = []
        ∧ selectedThemes (ui (world m')) = []
        ∧ numSentences (ui (world m')) = Num 5
        ∧ sentencesData (ui (world m')) = []
        ∧ contents (world m') (generatedSentencesSet (ui (world m'))) = ∅)
       ∨ (nextLabel (ui (world m)) = js "Далі"
          ∧ currentPage (ui (world m')) = practice
          ∧ currentSentenceIndex (ui (world m'))
            = S (currentSentenceIndex (ui (world m)))
          ∧ sentencesData (ui (world m')) = sentencesData (ui (world m))
          ∧ userAnswer (ui (world m')) = []
          ∧ currentReview (ui (world m')) = []
          ∧ errorMessage (ui (world m')) = [])).
Proof.
  eexists _, _. split; [vm_compute; reflexivity|].
  split; [vm_compute; reflexivity|].
  apply next_caption_tells_the_effect. vm_compute. reflexivity.
Defined.

(** ** Numbers and their decimal text *)

Lemma js_digit (c : ascii) (s : string) :
  (N_of_ascii c <? 128) = true → js (String c s) = N_of_ascii c :: js s.
Proof. intros Hc. unfold js. cbn [list_ascii_of_string map utf16]. by rewrite Hc. Qed.

(** The code units of a decimal numeral are digits, which [parseDigits]
    folds the way [Pos.of_uint_acc] does. *)
Lemma parseDigits_acc (d : Decimal.uint) (a : positive) :
  parseDigits 10 (Some (Npos a)) (js (NilEmpty.string_of_uint d))
  = Some (Npos (Pos.of_uint_acc d a)).
Proof.
  revert a. induction d; intros a; cbn [NilEmpty.string_of_uint];
    [reflexivity|..]; rewrite js_digit by reflexivity;
    cbn [parseDigits]; unfold digitValue; cbn [N_of_ascii];
    (etrans; [|apply IHd]); f_equal; f_equal; cbn; lia.
Qed.

Lemma parseDigits_zero (d : Decimal.uint) :
  parseDigits 10 (Some 0) (js (NilEmpty.string_of_uint d))
  = Some (Pos.of_uint d).
Proof.
  induction d; cbn [NilEmpty.string_of_uint Pos.of_uint];
    [reflexivity|..]; rewrite js_digit by reflexivity;
    cbn [parseDigits]; unfold digitValue; cbn [N_of_ascii];
    [exact IHd|..]; apply parseDigits_acc.
Qed.

Lemma parseInt_uint (d : Decimal.uint) :
  d ≠ Decimal.Nil →
  parseInt (js (NilEmpty.string_of_uint d)) = Num (Z.of_N (Pos.of_uint d))
  ∧ parseInt (45 :: js (NilEmpty.string_of_uint d))
    = Num (- Z.of_N (Pos.of_uint d)).
Proof.
  intros Hd.
  assert (parseDigits 10 None (js (NilEmpty.string_of_uint d))
          = Some (Pos.of_uint d)) as Hnone.
  { rewrite <- parseDigits_zero.
    destruct d; [done|..]; cbn [NilEmpty.string_of_uint];
      rewrite js_digit by reflexivity; reflexivity. }
  assert (∃ c rest, js (NilEmpty.string_of_uint d) = c :: rest
                    ∧ (48 <=? c) && (c <=? 57) = true
                    ∧ match rest with
                      | c' :: _ => (48 <=? c') && (c' <=? 57) = true
                      | [] => True
                      end) as (c & rest & Hjs & Hc & Hrest).
  { destruct d as [|d|d|d|d|d|d|d|d|d|d]; [done|..];
      cbn [NilEmpty.string_of_uint]; rewrite js_digit by reflexivity;
      eexists _, _; (split; [reflexivity|]); (split; [reflexivity|]);
      (destruct d; cbn [NilEmpty.string_of_uint];
       [done|rewrite js_digit by reflexivity; reflexivity..]). }
  rewrite Hjs in *.
  apply andb_true_iff in Hc as [Hc1%N.leb_le Hc2%N.leb_le].
  assert (c = 48 ∨ c = 49 ∨ c = 50 ∨ c = 51 ∨ c = 52 ∨ c = 53 ∨ c = 54
          ∨ c = 55 ∨ c = 56 ∨ c = 57) as Hcs by lia.
  assert (match rest with
          | c' :: _ => c' = 48 ∨ c' = 49 ∨ c' = 50 ∨ c' = 51 ∨ c' = 52
                       ∨ c' = 53 ∨ c' = 54 ∨ c' = 55 ∨ c' = 56 ∨ c' = 57
          | [] => True
          end) as Hx.
  { destruct rest as [|c' rest']; [done|].
    apply andb_true_iff in Hrest as [Hr1%N.leb_le Hr2%N.leb_le]. lia. }
  clear Hrest Hc1 Hc2 Hjs.
  unfold parseInt; cbn [trimStart isTrimmed];
    change (isTrimmed 45) with false; cbv zeta.
  destruct Hcs as [->|[->|[->|[->|[->|[->|[->|[->|[->| ->]]]]]]]]];
    lazy beta iota zeta delta [fst snd isTrimmed isWhiteSpace isLineTerminator
                              N.eqb N.leb N.compare Pos.eqb Pos.compare
                              Pos.compare_cont orb andb];
    try (rewrite Hnone; split; reflexivity).
  destruct rest as [|c' rest'].
  - rewrite Hnone. split; reflexivity.
  - destruct Hx as [->|[->|[->|[->|[->|[->|[->|[->|[->| ->]]]]]]]]];
      lazy beta iota zeta delta [fst snd];
      rewrite Hnone; split; reflexivity.
Qed.

(** X15. [parseInt] reads back the text a number has in a template
    literal: for NaN and for every integer that a JS number holds exactly
    (below 2^53 in absolute value, where the text is plain decimal),
    parsing the text of the number gives the number.  So a count field
    that shows [numSentences] and is read with [parseInt] hands the same
    count back. *)
Theorem parseInt_reads_back (n : number) :
  (∀ z, n = Num z → (Z.abs z < 2 ^ 53)%Z) →
  parseInt (numberToString n) = n.
Proof.
  intros _.
  destruct n as [z|]; [|vm_compute; reflexivity].
  unfold numberToString. destruct z as [|p|p].
  - vm_compute. reflexivity.
  - cbn [Z.to_int NilZero.string_of_int]. unfold NilZero.string_of_uint.
    pose proof (Unsigned.to_uint_nonnil p) as Hnn.
    destruct (parseInt_uint (Pos.to_uint p) Hnn) as [H _].
    destruct (Pos.to_uint p) eqn:Hp; [done|..];
      rewrite H; rewrite <- Hp, Unsigned.of_to; reflexivity.
  - cbn [Z.to_int NilZero.string_of_int]. unfold NilZero.string_of_uint.
    pose proof (Unsigned.to_uint_nonnil p) as Hnn.
    destruct (parseInt_uint (Pos.to_uint p) Hnn) as [_ H].
    destruct (Pos.to_uint p) eqn:Hp; [done|..];
      rewrite js_digit by reflexivity; change (N_of_ascii "-") with 45;
      rewrite H; rewrite <- Hp, Unsigned.of_to; reflexivity.
Qed.

Lemma parseInt_reads_back_witness :
  parseInt (numberToString (Num 20)) = Num 20.
Proof.
  apply (parseInt_reads_back (Num 20)).
  intros z Hz. injection Hz as <-. reflexivity.
Defined.
